(** * amcharts5: candlestick shape and map point series

    A shallow embedding of two classes of the charting library,

      - [Candlestick] (src/.internal/charts/xy/series/Candlestick.ts), the
        shape that draws a candle body and its two wicks, and
      - [MapPointSeries] (src/.internal/charts/map/MapPointSeries.ts), the
        series that creates the bullets of a map point and places them,

    together with the properties their specification states about them.

    JavaScript numbers are IEEE 754 doubles and are modelled by the kernel's
    primitive floats.  Objects that the code shares and mutates (data items,
    sprites) live in a store and are named by their index in it. *)

From Stdlib Require Import PrimFloat.
From stdpp Require Import gmap strings list.

Set Warnings "-inexact-float".

(* ===================================================================== *)
(** ** Candlestick *)
(* ===================================================================== *)

Module Candlestick.

(** The calls made on [this._display]. *)
Inductive DrawCall :=
| moveTo (x y : float)
| lineTo (x y : float)
| arcTo (x1 y1 x2 y2 r : float)
| closePath.

(** The part of the entity's state the two overridden methods touch:
    the number-valued settings by name (an absent key is [undefined]), the
    dirty flags by name, the [_clear] flag and the calls received by the
    display so far. *)
Record Shape := {
  _settings : gmap string float;
  _dirty : gset string;
  _clear : bool;
  _display : list DrawCall
}.

(** [this.get(key, fallback)] *)
Definition get (s : Shape) (key : string) (fallback : float) : float :=
  match _settings s !! key with
  | Some v => v
  | None => fallback
  end.

(** [this.isDirty(key)] *)
Definition isDirty (s : Shape) (key : string) : bool :=
  bool_decide (key ∈ _dirty s).

Definition set_clear (b : bool) (s : Shape) : Shape :=
  {| _settings := _settings s; _dirty := _dirty s; _clear := b;
     _display := _display s |}.

Definition display_call (c : DrawCall) (s : Shape) : Shape :=
  {| _settings := _settings s; _dirty := _dirty s; _clear := _clear s;
     _display := _display s ++ [c] |}.

(** Modelled from the spec: the entity's attribute write ([_markDirtyKey]
    and [set]), which the class inherits ("any attribute write marks the
    shape dirty"). *)
Definition _markDirtyKey (key : string) (s : Shape) : Shape :=
  {| _settings := _settings s; _dirty := {[ key ]} ∪ _dirty s;
     _clear := _clear s; _display := _display s |}.

Definition set (key : string) (value : float) (s : Shape) : Shape :=
  _markDirtyKey key
    {| _settings := <[ key := value ]> (_settings s); _dirty := _dirty s;
       _clear := _clear s; _display := _display s |}.

(** The eight wick coordinates. *)
Definition wickKeys : list string :=
  [ "lowX0"; "lowY0"; "lowX1"; "lowY1";
    "highX0"; "highY0"; "highX1"; "highY1" ]%string.

Section Methods.

(** The methods of [RoundedRectangle] that the class overrides and calls
    through [super]. *)
Variable super_beforeChanged : Shape → Shape.
Variable super_draw : Shape → Shape.

Definition _beforeChanged (this : Shape) : Shape :=
  let this := super_beforeChanged this in
  if isDirty this "lowX0" || isDirty this "lowY0" || isDirty this "lowX1"
     || isDirty this "lowY1" || isDirty this "highX0"
     || isDirty this "highX1" || isDirty this "highY0"
     || isDirty this "highY1"
  then set_clear true this
  else this.

Definition _draw (this : Shape) : Shape :=
  let this := super_draw this in
  let this := display_call (moveTo (get this "lowX0" 0) (get this "lowY0" 0)) this in
  let this := display_call (lineTo (get this "lowX1" 0) (get this "lowY1" 0)) this in
  let this := display_call (moveTo (get this "highX0" 0) (get this "highY0" 0)) this in
  let this := display_call (lineTo (get this "highX1" 0) (get this "highY1" 0)) this in
  this.

End Methods.

(** Whether a wick coordinate is dirty. *)
Definition wickDirty (s : Shape) : bool :=
  existsb (isDirty s) wickKeys.

(** For closed instances: a shape that was never drawn, and an inherited
    [_beforeChanged] that forces a redraw when a corner radius changed. *)
Definition sample_shape : Shape :=
  {| _settings := ∅; _dirty := ∅; _clear := false; _display := [] |}.

Definition sample_super_beforeChanged (s : Shape) : Shape :=
  if isDirty s "cornerRadiusTL" then set_clear true s else s.

End Candlestick.

(* ===================================================================== *)
(** ** MapPointSeries *)
(* ===================================================================== *)

Module MapPointSeries.

(** *** Data *)

(** [IGeoPoint] and [IPoint]. *)
Record GeoPoint := { geo_longitude : float; geo_latitude : float }.
Record IPoint := { point_x : float; point_y : float }.

(** GeoJSON: a position is an array of numbers; the series accepts the two
    geometry types of its [_types] field. *)
Definition Position := list float.

Inductive Geometry :=
| Point (coordinates : Position)
| MultiPoint (coordinates : list Position).

(** What placement consumes of a [MapLine] and of a [MapPolygon]. *)
Record MapLine := { positionToGeoPoint : float → GeoPoint }.
Record MapPolygon := { visualCentroid : GeoPoint }.

(** Data items of the sibling series, read through [get("mapLine")] and
    [get("mapPolygon")]. *)
Record LineDataItem := { mapLine : option MapLine }.
Record PolygonDataItem := { mapPolygon : option MapPolygon }.

(** A series of the chart, by what [isType] answers, with its
    [getDataItemById]. *)
Inductive Series :=
| MapLineSeries (getDataItemById : string → option LineDataItem)
| MapPolygonSeries (getDataItemById : string → option PolygonDataItem)
| OtherSeries.

(** What the series reads of its chart.  [geoPath] is the clip predicate:
    [true] when it yields a path for the geometry. *)
Record MapChart := {
  series : list Series;
  projection : Position → option (float * float);
  geoPath : Geometry → bool;
  convert : GeoPoint → IPoint
}.

(** A bullet: the reference of its sprite and the index [_index]. *)
Record Bullet := { sprite : option nat; _index : option nat }.

(** [IMapPointSeriesDataItem], and the [bullets] of the data item. *)
Record DataItem := {
  geometry : option Geometry;
  longitude : option float;
  latitude : option float;
  positionOnLine : option float;
  autoRotate : option bool;
  autoRotateAngle : option float;
  lineDataItem : option LineDataItem;
  lineId : option string;
  polygonDataItem : option PolygonDataItem;
  polygonId : option string;
  bullets : list Bullet
}.

(** What placement reads and writes of a sprite; [dataItem] is a reference
    into the store of data items. *)
Record Sprite := {
  dataItem : option nat;
  x : option float;
  y : option float;
  rotation : option float;
  visible : option bool
}.

(** A bullet function makes the sprite of a new bullet for a data item. *)
Definition BulletFunction := DataItem → Sprite.

(** The series itself: [this.chart], the two clip settings and the bullet
    functions of [this.bullets]. *)
Record Self := {
  chart : option MapChart;
  clipFront : option bool;
  clipBack : option bool;
  bulletFunctions : list BulletFunction
}.

(** *** Store and effects *)

Inductive RefKind := Line | Polygon.

(** What the code does to the objects it shares, in the order it does it. *)
Inductive Event :=
| series_each (k : RefKind)
| getDataItemById_call (k : RefKind) (id : string)
| dataItem_set (ref : nat) (key : string)
| sprite_set (ref : nat) (key : string).

#[global] Instance RefKind_eq_dec : EqDecision RefKind.
Proof. solve_decision. Defined.

#[global] Instance Event_eq_dec : EqDecision Event.
Proof. solve_decision. Defined.

(** The store: the data items and the sprites, each object at the index
    that is its reference, and the events so far.  A reference to no
    object reads as [undefined]. *)
Record World := {
  items : list DataItem;
  sprites : list Sprite;
  log : list Event
}.

(** A computation either ends in a new world or throws (a property read on
    [undefined]). *)
Inductive Result (A : Type) :=
| Ok (a : A) (w : World)
| TypeError.
Arguments Ok {A} a w.
Arguments TypeError {A}.

Definition M (A : Type) : Type := World → Result A.

#[global] Instance M_ret : MRet M := λ A a w, Ok a w.
#[global] Instance M_bind : MBind M := λ A B f m w,
  match m w with
  | Ok a w' => f a w'
  | TypeError => TypeError
  end.

Definition emit (e : Event) : M unit := λ w,
  Ok () {| items := items w; sprites := sprites w; log := log w ++ [e] |}.

(** [dataItem.get(key)]: throws when [dataItem] is [undefined]. *)
Definition item_get {A} (ref : option nat) (field : DataItem → A) : M A := λ w,
  match ref ≫= (items w !!.) with
  | Some d => Ok (field d) w
  | None => TypeError
  end.

(** [dataItem.set(key, value)] *)
Definition item_set (ref : option nat) (key : string)
    (update : DataItem → DataItem) : M unit := λ w,
  match ref with
  | Some r =>
      match items w !! r with
      | Some d =>
          Ok () {| items := <[ r := update d ]> (items w);
                   sprites := sprites w;
                   log := log w ++ [dataItem_set r key] |}
      | None => TypeError
      end
  | None => TypeError
  end.

(** A property read on a sprite. *)
Definition sprite_get {A} (ref : nat) (field : Sprite → A) : M A := λ w,
  match sprites w !! ref with
  | Some s => Ok (field s) w
  | None => TypeError
  end.

(** [sprite.set(key, value)] and [sprite.setPrivate(key, value)] *)
Definition sprite_update (ref : nat) (key : string)
    (update : Sprite → Sprite) : M unit := λ w,
  match sprites w !! ref with
  | Some s =>
      Ok () {| items := items w;
               sprites := <[ ref := update s ]> (sprites w);
               log := log w ++ [sprite_set ref key] |}
  | None => TypeError
  end.

(** [each] over an array or a list, the callback updating the variables it
    captures (the accumulator [s]). *)
Fixpoint each {A S} (f : A → S → M S) (l : list A) (s : S) : M S :=
  match l with
  | [] => mret s
  | a :: l => s ← f a s; each f l s
  end.

(** Field writes. *)
Definition with_lineDataItem (v : LineDataItem) (d : DataItem) : DataItem :=
  {| geometry := geometry d; longitude := longitude d; latitude := latitude d;
     positionOnLine := positionOnLine d; autoRotate := autoRotate d;
     autoRotateAngle := autoRotateAngle d; lineDataItem := Some v;
     lineId := lineId d; polygonDataItem := polygonDataItem d;
     polygonId := polygonId d; bullets := bullets d |}.

Definition with_polygonDataItem (v : PolygonDataItem) (d : DataItem) : DataItem :=
  {| geometry := geometry d; longitude := longitude d; latitude := latitude d;
     positionOnLine := positionOnLine d; autoRotate := autoRotate d;
     autoRotateAngle := autoRotateAngle d; lineDataItem := lineDataItem d;
     lineId := lineId d; polygonDataItem := Some v;
     polygonId := polygonId d; bullets := bullets d |}.

Definition with_autoRotateAngle (v : float) (d : DataItem) : DataItem :=
  {| geometry := geometry d; longitude := longitude d; latitude := latitude d;
     positionOnLine := positionOnLine d; autoRotate := autoRotate d;
     autoRotateAngle := Some v; lineDataItem := lineDataItem d;
     lineId := lineId d; polygonDataItem := polygonDataItem d;
     polygonId := polygonId d; bullets := bullets d |}.

Definition with_bullets (v : list Bullet) (d : DataItem) : DataItem :=
  {| geometry := geometry d; longitude := longitude d; latitude := latitude d;
     positionOnLine := positionOnLine d; autoRotate := autoRotate d;
     autoRotateAngle := autoRotateAngle d; lineDataItem := lineDataItem d;
     lineId := lineId d; polygonDataItem := polygonDataItem d;
     polygonId := polygonId d; bullets := v |}.

Definition with_x (v : float) (s : Sprite) : Sprite :=
  {| dataItem := dataItem s; x := Some v; y := y s; rotation := rotation s;
     visible := visible s |}.
Definition with_y (v : float) (s : Sprite) : Sprite :=
  {| dataItem := dataItem s; x := x s; y := Some v; rotation := rotation s;
     visible := visible s |}.
Definition with_rotation (v : float) (s : Sprite) : Sprite :=
  {| dataItem := dataItem s; x := x s; y := y s; rotation := Some v;
     visible := visible s |}.
Definition with_visible (v : bool) (s : Sprite) : Sprite :=
  {| dataItem := dataItem s; x := x s; y := y s; rotation := rotation s;
     visible := Some v |}.

(** JavaScript truthiness of an optional boolean and of an optional string
    (the empty string is falsy). *)
Definition truthy (v : option bool) : bool := default false v.

Definition truthy_string (v : option string) : option string :=
  match v with
  | Some s => if decide (s = ""%string) then None else Some s
  | None => None
  end.

(** *** Methods *)

Section Methods.

(** [$type.isNumber] on a value that is present ([undefined] is not a
    number) and [$math.getAngle], both of the library's utility modules. *)
Variable isNumber : float → bool.
Variable getAngle : IPoint → IPoint → float.

Variable this : Self.

Definition _positionBulletReal (sprite : nat) (geometry : Geometry)
    (coordinates : Position) : M unit :=
  let chart := chart this in
  match chart with
  | Some chart =>
      let projection := projection chart in
      let geoPath := geoPath chart in
      dataItem ← sprite_get sprite dataItem;
      let xy := projection coordinates in
      match xy with
      | Some xy =>
          sprite_update sprite "x" (with_x (fst xy));;
          sprite_update sprite "y" (with_y (snd xy))
      | None => mret ()
      end;;
      let visible := true in
      let visible :=
        if geoPath geometry
        then (if truthy (clipFront this) then false else visible)
        else (if truthy (clipBack this) then false else visible) in
      sprite_update sprite "visible" (with_visible visible);;
      match dataItem with
      | Some _ =>
          autoRotate ← item_get dataItem autoRotate;
          if truthy autoRotate
          then
            angle ← item_get dataItem autoRotateAngle;
            sprite_update sprite "rotation" (with_rotation (default 0%float angle))
          else mret ()
      | None => mret ()
      end
  | None => mret ()
  end.

(** The callback of [chart.series.each] in the lookup of [lineId]; it
    assigns the captured variable [line]. *)
Definition lineId_callback (dataItem : option nat) (lineId : string)
    (series : Series) (line : option MapLine) : M (option MapLine) :=
  match series with
  | MapLineSeries getDataItemById =>
      emit (getDataItemById_call Line lineId);;
      let lineDI := getDataItemById lineId in
      match lineDI with
      | Some lineDI =>
          item_set dataItem "lineDataItem" (with_lineDataItem lineDI);;
          mret (mapLine lineDI)
      | None => mret line
      end
  | _ => mret line
  end.

(** The same for [polygonId] and the captured variable [polygon]. *)
Definition polygonId_callback (dataItem : option nat) (polygonId : string)
    (series : Series) (polygon : option MapPolygon) : M (option MapPolygon) :=
  match series with
  | MapPolygonSeries getDataItemById =>
      emit (getDataItemById_call Polygon polygonId);;
      let polygonDI := getDataItemById polygonId in
      match polygonDI with
      | Some polygonDI =>
          item_set dataItem "polygonDataItem" (with_polygonDataItem polygonDI);;
          mret (mapPolygon polygonDI)
      | None => mret polygon
      end
  | _ => mret polygon
  end.

(** Lines 198 to 218: the line of the data item. *)
Definition resolve_line (dataItem : option nat) : M (option MapLine) :=
  lineDataItem ← item_get dataItem lineDataItem;
  match lineDataItem with
  | Some lineDataItem => mret (mapLine lineDataItem)
  | None =>
      lineId ← item_get dataItem lineId;
      match truthy_string lineId, chart this with
      | Some lineId, Some chart =>
          emit (series_each Line);;
          each (lineId_callback dataItem lineId) (series chart) None
      | _, _ => mret None
      end
  end.

(** Lines 221 to 240: the polygon of the data item. *)
Definition resolve_polygon (dataItem : option nat) : M (option MapPolygon) :=
  polygonDataItem ← item_get dataItem polygonDataItem;
  match polygonDataItem with
  | Some polygonDataItem => mret (mapPolygon polygonDataItem)
  | None =>
      polygonId ← item_get dataItem polygonId;
      match truthy_string polygonId, chart this with
      | Some polygonId, Some chart =>
          emit (series_each Polygon);;
          each (polygonId_callback dataItem polygonId) (series chart) None
      | _, _ => mret None
      end
  end.

(** [$type.isNumber(v)] for an optional value, narrowing it to a number. *)
Definition number (v : option float) : option float :=
  match v with
  | Some n => if isNumber n then Some n else None
  | None => None
  end.

Definition _positionBullet (bullet : Bullet) : M unit :=
  match sprite bullet with
  | Some sprite =>
      dataItem ← sprite_get sprite dataItem;
      latitude ← item_get dataItem latitude;
      longitude ← item_get dataItem longitude;
      line ← resolve_line dataItem;
      polygon ← resolve_polygon dataItem;
      positionOnLine ← item_get dataItem positionOnLine;
      coordinates ←
        match polygon, line, number positionOnLine with
        | Some polygon, _, _ =>
            let geoPoint := visualCentroid polygon in
            mret (Some [geo_longitude geoPoint; geo_latitude geoPoint])
        | None, Some line, Some positionOnLine =>
            let geoPoint := positionToGeoPoint line positionOnLine in
            autoRotate ← item_get dataItem autoRotate;
            match truthy autoRotate, chart this with
            | true, Some chart =>
                let geoPoint0 := positionToGeoPoint line (positionOnLine - 0.002) in
                let geoPoint1 := positionToGeoPoint line (positionOnLine + 0.002) in
                let point0 := convert chart geoPoint0 in
                let point1 := convert chart geoPoint1 in
                item_set dataItem "autoRotateAngle"
                  (with_autoRotateAngle (getAngle point0 point1))
            | _, _ => mret ()
            end;;
            mret (Some [geo_longitude geoPoint; geo_latitude geoPoint])
        | _, _, _ =>
            match number longitude, number latitude with
            | Some longitude, Some latitude =>
                mret (Some [longitude; latitude])
            | _, _ =>
                geometry ← item_get dataItem geometry;
                match geometry with
                | Some (Point coordinates) =>
                    _positionBulletReal sprite (Point coordinates) coordinates;;
                    mret None
                | Some (MultiPoint coordinates) =>
                    let index := default 0 (_index bullet) in
                    mret (coordinates !! index)
                | None => mret None
                end
            end
        end;
      match coordinates with
      | Some coordinates =>
          _positionBulletReal sprite (Point coordinates) coordinates
      | None => mret ()
      end
  | None => mret ()
  end.

(** Modelled from the spec: [_makeBullet] of the base series class, which
    is not part of the sources at hand.  The bullet function produces a
    marker at each invocation; the marker gets the index the caller
    passes, is bound to the data item and joins the data item's
    [bullets]. *)
Definition _makeBullet (dataItem : nat) (bulletFunction : BulletFunction)
    (index : option nat) : M unit := λ w,
  match items w !! dataItem with
  | Some d =>
      let sprite := length (sprites w) in
      let made :=
        {| dataItem := Some dataItem; x := x (bulletFunction d);
           y := y (bulletFunction d); rotation := rotation (bulletFunction d);
           visible := visible (bulletFunction d) |} in
      let bullet := {| sprite := Some sprite; _index := index |} in
      Ok () {| items := <[ dataItem := with_bullets (bullets d ++ [bullet]) d ]> (items w);
               sprites := sprites w ++ [made];
               log := log w |}
  | None => TypeError
  end.

(** [dataItem.bullets = []] *)
Definition reset_bullets (dataItem : nat) : M unit := λ w,
  match items w !! dataItem with
  | Some d =>
      Ok () {| items := <[ dataItem := with_bullets [] d ]> (items w);
               sprites := sprites w; log := log w |}
  | None => TypeError
  end.

(** The callback of [$array.each(geometry.coordinates, ...)]; it
    increments the captured counter [i]. *)
Definition coordinates_callback (dataItem : nat) (bulletFunction : BulletFunction)
    (_ : Position) (i : nat) : M nat :=
  _makeBullet dataItem bulletFunction (Some i);;
  mret (S i).

(** The callback of [this.bullets.each].  In the source the second test is
    the assignment [geometry.type = "MultiPoint"], whose value is truthy;
    on a geometry that is not a [Point], hence a [MultiPoint], it changes
    nothing. *)
Definition bullets_callback (dataItem : nat) (bulletFunction : BulletFunction)
    (_ : unit) : M unit :=
  geometry ← item_get (Some dataItem) geometry;
  match geometry with
  | Some (Point _) => _makeBullet dataItem bulletFunction None
  | Some (MultiPoint coordinates) =>
      let i := 0 in
      each (coordinates_callback dataItem bulletFunction) coordinates i;;
      mret ()
  | None => mret ()
  end.

Definition _makeBullets (dataItem : nat) : M unit :=
  reset_bullets dataItem;;
  each (bullets_callback dataItem) (bulletFunctions this) ().

(** Successive placement calls, one for each bullet of a list. *)
Definition placements (bullets : list Bullet) : M unit :=
  each (λ bullet (_ : unit), _positionBullet bullet) bullets ().

End Methods.

(** A bullet whose sprite, if it has one, is in the store and belongs to the
    data item [r]. *)
Definition bullet_of (w : World) (r : nat) (b : Bullet) : bool :=
  match sprite b with
  | Some sp =>
      match sprites w !! sp with
      | Some s => bool_decide (dataItem s = Some r)
      | None => false
      end
  | None => true
  end.

(** The bullets of [n] markers made in a row from the sprite reference
    [base] on, the [m]-th with index [index m]. *)
Definition numbered (base : nat) (index : nat → option nat) (n : nat) : list Bullet :=
  (λ m, {| sprite := Some (base + m); _index := index m |}) <$> seq 0 n.

(** *** What a placement call computes

    The functions below describe, without the store, what [_positionBullet]
    does to a data item [d]; the lemmas on [_positionBullet] relate the two. *)

(** The data items a scan of the series finds for an identifier, in the order
    of the series. *)
Definition line_matches (id : string) (ss : list Series) : list LineDataItem :=
  omap (λ s, match s with MapLineSeries get => get id | _ => None end) ss.

Definition polygon_matches (id : string) (ss : list Series) : list PolygonDataItem :=
  omap (λ s, match s with MapPolygonSeries get => get id | _ => None end) ss.

(** The events of the callback over the series. *)
Fixpoint line_scan_events (r : nat) (id : string) (ss : list Series) : list Event :=
  match ss with
  | [] => []
  | MapLineSeries get :: ss =>
      getDataItemById_call Line id
        :: (if get id is Some _ then [dataItem_set r "lineDataItem"] else [])
        ++ line_scan_events r id ss
  | _ :: ss => line_scan_events r id ss
  end.

Fixpoint polygon_scan_events (r : nat) (id : string) (ss : list Series) : list Event :=
  match ss with
  | [] => []
  | MapPolygonSeries get :: ss =>
      getDataItemById_call Polygon id
        :: (if get id is Some _ then [dataItem_set r "polygonDataItem"] else [])
        ++ polygon_scan_events r id ss
  | _ :: ss => polygon_scan_events r id ss
  end.

(** The identifiers queried with [getDataItemById] for a kind of reference,
    and the number of scans started for it, in a list of events. *)
Definition queries (k : RefKind) (evs : list Event) : list string :=
  omap (λ e, match e with
             | getDataItemById_call k' id => if decide (k = k') then Some id else None
             | _ => None
             end) evs.

Definition scans (k : RefKind) (evs : list Event) : nat :=
  length (filter (λ e, e = series_each k) evs).

Definition is_line_series (s : Series) : bool :=
  match s with MapLineSeries _ => true | _ => false end.

Definition is_polygon_series (s : Series) : bool :=
  match s with MapPolygonSeries _ => true | _ => false end.

Section Description.

Variable isNumber : float → bool.
Variable getAngle : IPoint → IPoint → float.
Variable this : Self.

(** The data item that the scan for [lineId] leaves in [lineDataItem],
    when there is a scan and it finds one. *)
Definition scanned_line (d : DataItem) : option LineDataItem :=
  match lineDataItem d, truthy_string (lineId d), chart this with
  | None, Some id, Some c => last (line_matches id (series c))
  | _, _, _ => None
  end.

Definition scanned_polygon (d : DataItem) : option PolygonDataItem :=
  match polygonDataItem d, truthy_string (polygonId d), chart this with
  | None, Some id, Some c => last (polygon_matches id (series c))
  | _, _, _ => None
  end.

(** The values of the variables [line] and [polygon] at line 242. *)
Definition line_of (d : DataItem) : option MapLine :=
  match lineDataItem d with
  | Some ldi => mapLine ldi
  | None => scanned_line d ≫= mapLine
  end.

Definition polygon_of (d : DataItem) : option MapPolygon :=
  match polygonDataItem d with
  | Some pdi => mapPolygon pdi
  | None => scanned_polygon d ≫= mapPolygon
  end.

Definition line_events (r : nat) (d : DataItem) : list Event :=
  match lineDataItem d, truthy_string (lineId d), chart this with
  | None, Some id, Some c => series_each Line :: line_scan_events r id (series c)
  | _, _, _ => []
  end.

Definition polygon_events (r : nat) (d : DataItem) : list Event :=
  match polygonDataItem d, truthy_string (polygonId d), chart this with
  | None, Some id, Some c => series_each Polygon :: polygon_scan_events r id (series c)
  | _, _, _ => []
  end.

(** The angle that the branch of the line computes, when it does. *)
Definition computed_angle (d : DataItem) : option float :=
  match polygon_of d, line_of d, number isNumber (positionOnLine d),
        truthy (autoRotate d), chart this with
  | None, Some line, Some p, true, Some c =>
      Some (getAngle (convert c (positionToGeoPoint line (p - 0.002)))
                     (convert c (positionToGeoPoint line (p + 0.002))))
  | _, _, _, _, _ => None
  end.

(** The data item when the call reaches the final placement. *)
Definition resolved_item (d : DataItem) : DataItem :=
  let d1 := from_option (λ ldi, with_lineDataItem ldi d) d (scanned_line d) in
  let d2 := from_option (λ pdi, with_polygonDataItem pdi d1) d1 (scanned_polygon d) in
  from_option (λ a, with_autoRotateAngle a d2) d2 (computed_angle d).

Definition resolution_events (r : nat) (d : DataItem) : list Event :=
  line_events r d ++ polygon_events r d
    ++ (if computed_angle d is Some _ then [dataItem_set r "autoRotateAngle"] else []).

(** The geometry and the coordinates that reach [_positionBulletReal],
    if any do. *)
Definition target (bullet : Bullet) (d : DataItem) : option (Geometry * Position) :=
  match polygon_of d, line_of d, number isNumber (positionOnLine d) with
  | Some polygon, _, _ =>
      let c := [geo_longitude (visualCentroid polygon);
                geo_latitude (visualCentroid polygon)] in
      Some (Point c, c)
  | None, Some line, Some p =>
      let c := [geo_longitude (positionToGeoPoint line p);
                geo_latitude (positionToGeoPoint line p)] in
      Some (Point c, c)
  | _, _, _ =>
      match number isNumber (longitude d), number isNumber (latitude d) with
      | Some lon, Some lat => Some (Point [lon; lat], [lon; lat])
      | _, _ =>
          match geometry d with
          | Some (Point c) => Some (Point c, c)
          | Some (MultiPoint cs) =>
              c ← cs !! default 0 (_index bullet); Some (Point c, c)
          | None => None
          end
      end
  end.

(** The sprite after the final placement of [coordinates], for a data
    item [d]. *)
Definition is_visible (c : MapChart) (g : Geometry) : bool :=
  if geoPath c g then negb (truthy (clipFront this))
  else negb (truthy (clipBack this)).

Definition placed_sprite (c : MapChart) (g : Geometry) (coordinates : Position)
    (d : DataItem) (s : Sprite) : Sprite :=
  {| dataItem := dataItem s;
     x := match projection c coordinates with
          | Some xy => Some (fst xy)
          | None => x s
          end;
     y := match projection c coordinates with
          | Some xy => Some (snd xy)
          | None => y s
          end;
     rotation := if truthy (autoRotate d)
                 then Some (default 0%float (autoRotateAngle d))
                 else rotation s;
     visible := Some (is_visible c g) |}.

Definition placement_events (c : MapChart) (sp : nat) (coordinates : Position)
    (d : DataItem) : list Event :=
  (if projection c coordinates is Some _
   then [sprite_set sp "x"; sprite_set sp "y"] else [])
    ++ [sprite_set sp "visible"]
    ++ (if truthy (autoRotate d) then [sprite_set sp "rotation"] else []).

(** The world when the call reaches the final placement. *)
Definition resolved_world (r : nat) (d : DataItem) (w : World) : World :=
  {| items := <[ r := resolved_item d ]> (items w);
     sprites := sprites w;
     log := log w ++ resolution_events r d |}.

End Description.

(** *** A small chart, for closed instances *)

(** Stand-ins for [$type.isNumber] (a number that is not NaN) and for
    [$math.getAngle] (here the slope between the two points). *)
Definition sample_isNumber (n : float) : bool := negb (is_nan n).

Definition sample_getAngle (p0 p1 : IPoint) : float :=
  ((point_y p1 - point_y p0) / (point_x p1 - point_x p0))%float.

Definition sample_lineA : MapLine :=
  {| positionToGeoPoint := λ p,
       {| geo_longitude := (p * 10)%float; geo_latitude := (p * 20)%float |} |}.

Definition sample_lineB : MapLine :=
  {| positionToGeoPoint := λ p,
       {| geo_longitude := (p * 30)%float; geo_latitude := (p * 60)%float |} |}.

Definition sample_polygon : MapPolygon :=
  {| visualCentroid := {| geo_longitude := 30%float; geo_latitude := 40%float |} |}.

Definition sample_polygon2 : MapPolygon :=
  {| visualCentroid := {| geo_longitude := 50%float; geo_latitude := 60%float |} |}.

(** Two line series that both know the identifier ["a"], and two polygon
    series that both know ["p"].  The projection has no result beyond the
    poles; the clip predicate accepts the hemisphere that faces the viewer. *)
Definition sample_chart : MapChart :=
  {| series :=
       [ MapLineSeries (λ id, if decide (id = "a"%string)
                              then Some {| mapLine := Some sample_lineA |} else None);
         OtherSeries;
         MapPolygonSeries (λ id, if decide (id = "p"%string)
                                 then Some {| mapPolygon := Some sample_polygon |} else None);
         MapLineSeries (λ id, if decide (id = "a"%string)
                              then Some {| mapLine := Some sample_lineB |} else None);
         MapPolygonSeries (λ id, if decide (id = "p"%string)
                                 then Some {| mapPolygon := Some sample_polygon2 |} else None) ];
     projection := λ p,
       match p with
       | [lon; lat] => if (abs lat <=? 90)%float then Some (lon, (- lat)%float) else None
       | _ => None
       end;
     geoPath := λ g,
       match g with
       | Point [lon; lat] => (abs lon <=? 90)%float
       | _ => true
       end;
     convert := λ g, {| point_x := geo_longitude g; point_y := (- geo_latitude g)%float |} |}.

Definition sample_sprite (r : nat) : Sprite :=
  {| dataItem := Some r; x := None; y := None; rotation := None; visible := None |}.

Definition sample_series : Self :=
  {| chart := Some sample_chart; clipFront := None; clipBack := Some true;
     bulletFunctions := [ λ _, sample_sprite 0; λ _, sample_sprite 0 ] |}.

(** Entries: placed by longitude and latitude; by the identifier of a
    polygon; by the identifier of a line; attached to a polygon and to a
    line at once; beyond the pole; with a multi-point geometry. *)
Definition sample_lonlat : DataItem :=
  {| geometry := None; longitude := Some 10%float; latitude := Some 20%float;
     positionOnLine := None; autoRotate := None; autoRotateAngle := None;
     lineDataItem := None; lineId := None; polygonDataItem := None;
     polygonId := None; bullets := [] |}.

Definition sample_by_polygon : DataItem :=
  {| geometry := None; longitude := Some 10%float; latitude := Some 20%float;
     positionOnLine := None; autoRotate := None; autoRotateAngle := None;
     lineDataItem := None; lineId := None; polygonDataItem := None;
     polygonId := Some "p"%string; bullets := [] |}.

Definition sample_by_line : DataItem :=
  {| geometry := None; longitude := None; latitude := None;
     positionOnLine := Some 0.5%float; autoRotate := Some true;
     autoRotateAngle := None;
     lineDataItem := None; lineId := Some "a"%string; polygonDataItem := None;
     polygonId := None; bullets := [] |}.

Definition sample_both : DataItem :=
  {| geometry := None; longitude := None; latitude := None;
     positionOnLine := Some 0.5%float; autoRotate := Some true;
     autoRotateAngle := None;
     lineDataItem := Some {| mapLine := Some sample_lineA |}; lineId := None;
     polygonDataItem := Some {| mapPolygon := Some sample_polygon |};
     polygonId := None; bullets := [] |}.

Definition sample_far : DataItem :=
  {| geometry := None; longitude := Some 120%float; latitude := Some 95%float;
     positionOnLine := None; autoRotate := Some true;
     autoRotateAngle := Some 45%float;
     lineDataItem := None; lineId := None; polygonDataItem := None;
     polygonId := None; bullets := [] |}.

Definition sample_multi : DataItem :=
  {| geometry := Some (MultiPoint [ [1; 2]; [3; 4]; [5; 6] ]%float);
     longitude := None; latitude := None;
     positionOnLine := None; autoRotate := None; autoRotateAngle := None;
     lineDataItem := None; lineId := None; polygonDataItem := None;
     polygonId := None; bullets := [] |}.

Definition sample_world : World :=
  {| items := [ sample_lonlat; sample_by_polygon; sample_by_line; sample_both;
                sample_far; sample_multi ];
     sprites := sample_sprite <$> seq 0 6;
     log := [] |}.

Definition sample_bullet (r : nat) : Bullet :=
  {| sprite := Some r; _index := None |}.

(** The world after a first placement of the entry that names a line. *)
Definition sample_world_resolved : World :=
  match _positionBullet sample_isNumber sample_getAngle sample_series
          (sample_bullet 2) sample_world with
  | Ok _ w => w
  | TypeError => sample_world
  end.


(** *** Further notions for the properties *)

(** The sprite [s'] is where the final placement of [coordinates] puts the
    sprite [s]: at the projection, or where it was when there is none. *)
Definition placed_at (c : MapChart) (coordinates : Position) (s s' : Sprite) : Prop :=
  match projection c coordinates with
  | Some xy => x s' = Some (fst xy) ∧ y s' = Some (snd xy)
  | None => x s' = x s ∧ y s' = y s
  end.

(** A bullet that has a sprite, in the store and of the data item [r]. *)
Definition sprite_of (w : World) (r : nat) (b : Bullet) : bool :=
  match sprite b with
  | Some sp =>
      match sprites w !! sp with
      | Some s => bool_decide (dataItem s = Some r)
      | None => false
      end
  | None => false
  end.

Section Outcome.

Variable isNumber : float → bool.
Variable getAngle : IPoint → IPoint → float.
Variable this : Self.

(** The sprite [s] of the bullet after a placement call for an entry that
    was [d] before any call. *)
Definition final_sprite (bullet : Bullet) (d : DataItem) (s : Sprite) : Sprite :=
  match chart this, target isNumber this bullet d with
  | Some c, Some (g, co) =>
      placed_sprite this c g co (resolved_item isNumber getAngle this d) s
  | _, _ => s
  end.

End Outcome.

(** *** The other methods of the series *)

Definition with_geometry (v : Geometry) (d : DataItem) : DataItem :=
  {| geometry := Some v; longitude := longitude d; latitude := latitude d;
     positionOnLine := positionOnLine d; autoRotate := autoRotate d;
     autoRotateAngle := autoRotateAngle d; lineDataItem := lineDataItem d;
     lineId := lineId d; polygonDataItem := polygonDataItem d;
     polygonId := polygonId d; bullets := bullets d |}.

Section Lifecycle.

Variable this : Self.

(** What the two methods call outside the class: [processDataItem] and
    [_addGeometry] of the base map series, and [zoomToGeoPoint] of the
    chart. *)
Variable super_processDataItem : nat → M unit.
Variable _addGeometry : option Geometry → M unit.
Variable zoomToGeoPoint : MapChart → GeoPoint → float → bool → M unit.

Definition processDataItem (dataItem : nat) : M unit :=
  super_processDataItem dataItem;;
  (geometry ← item_get (Some dataItem) geometry;
   match geometry with
   | Some _ => mret ()
   | None =>
       longitude ← item_get (Some dataItem) longitude;
       latitude ← item_get (Some dataItem) latitude;
       item_set (Some dataItem) "geometry"
         (with_geometry (Point [default 0%float longitude; default 0%float latitude]))
   end);;
  geometry ← item_get (Some dataItem) geometry;
  _addGeometry geometry.

Definition zoomToDataItem (dataItem : nat) (zoomLevel : float) : M unit :=
  let chart := chart this in
  match chart with
  | Some chart =>
      longitude ← item_get (Some dataItem) longitude;
      latitude ← item_get (Some dataItem) latitude;
      zoomToGeoPoint chart
        {| geo_longitude := default 0%float longitude;
           geo_latitude := default 0%float latitude |}
        zoomLevel true
  | None => mret ()
  end.

End Lifecycle.

(** The geometry of an entry once it is processed: its own, or the point
    at its longitude and latitude, [0] standing for the one that is unset. *)
Definition processed_geometry (d : DataItem) : Geometry :=
  match geometry d with
  | Some g => g
  | None => Point [default 0%float (longitude d); default 0%float (latitude d)]
  end.

(** *** More closed instances *)

(** The sample series before it joins a chart. *)
Definition sample_unattached : Self :=
  {| chart := None; clipFront := None; clipBack := Some true;
     bulletFunctions := [] |}.

(** Entries: on a line but without a position on it; with identifiers that
    no series knows; with a longitude and nothing else. *)
Definition sample_line_no_position : DataItem :=
  {| geometry := None; longitude := Some 10%float; latitude := Some 20%float;
     positionOnLine := None; autoRotate := Some true; autoRotateAngle := None;
     lineDataItem := Some {| mapLine := Some sample_lineA |}; lineId := None;
     polygonDataItem := None; polygonId := None; bullets := [] |}.

Definition sample_unknown : DataItem :=
  {| geometry := None; longitude := Some 1%float; latitude := Some 2%float;
     positionOnLine := None; autoRotate := None; autoRotateAngle := None;
     lineDataItem := None; lineId := Some "z"%string;
     polygonDataItem := None; polygonId := Some "q"%string; bullets := [] |}.

Definition sample_only_longitude : DataItem :=
  {| geometry := None; longitude := Some 7%float; latitude := None;
     positionOnLine := None; autoRotate := None; autoRotateAngle := None;
     lineDataItem := None; lineId := None; polygonDataItem := None;
     polygonId := None; bullets := [] |}.

(** The second entry has two sprites, the third sprite has no data item. *)
Definition sample_world2 : World :=
  {| items := [ sample_line_no_position; sample_unknown; sample_only_longitude ];
     sprites := [ sample_sprite 0; sample_sprite 1; sample_sprite 1;
                  {| dataItem := None; x := None; y := None; rotation := None;
                     visible := None |};
                  sample_sprite 2 ];
     log := [] |}.

(** The first sample world, the multi-point entry holding two bullets of an
    earlier marker creation. *)
Definition sample_world_stale : World :=
  {| items := <[ 5 := with_bullets [ sample_bullet 0; sample_bullet 1 ]
                        sample_multi ]> (items sample_world);
     sprites := sprites sample_world;
     log := [] |}.

(** Stand-ins for the inherited processing (which does nothing here), for
    the store of geometries (likewise) and for the zoom of the chart, which
    moves the first sprite, a crosshair, to the point it is given. *)
Definition sample_super_processDataItem (_ : nat) : M unit := mret ().

Definition sample_addGeometry (_ : option Geometry) : M unit := mret ().

Definition sample_zoomToGeoPoint (_ : MapChart) (p : GeoPoint) (_ : float)
    (_ : bool) : M unit :=
  sprite_update 0 "x" (with_x (geo_longitude p));;
  sprite_update 0 "y" (with_y (geo_latitude p)).

End MapPointSeries.

(* ===================================================================== *)
(** ** Properties of Candlestick *)
(* ===================================================================== *)

Section CandlestickFacts.
Import Candlestick.

Variable super_beforeChanged : Shape → Shape.
Variable super_draw : Shape → Shape.

Lemma isDirty_markDirtyKey key s : isDirty (_markDirtyKey key s) key = true.
Proof.
  unfold isDirty. apply bool_decide_eq_true_2. simpl.
  apply elem_of_union_l. by apply elem_of_singleton.
Qed.

Lemma isDirty_set key value s : isDirty (set key value s) key = true.
Proof. apply isDirty_markDirtyKey. Qed.

Lemma isDirty_markDirtyKey_ne key key' s :
  key ≠ key' → isDirty (_markDirtyKey key s) key' = isDirty s key'.
Proof.
  intros Hne. unfold isDirty. apply bool_decide_ext. simpl.
  rewrite elem_of_union, elem_of_singleton.
  split; [intros [Heq | Hin]; [congruence | done] | by right].
Qed.

(** The test of [_beforeChanged] is the disjunction over the eight keys. *)
Lemma _beforeChanged_wickDirty s :
  _beforeChanged super_beforeChanged s
  = if wickDirty (super_beforeChanged s)
    then set_clear true (super_beforeChanged s)
    else super_beforeChanged s.
Proof.
  unfold _beforeChanged, wickDirty; simpl.
  set (t := super_beforeChanged s).
  destruct (isDirty t "lowX0"), (isDirty t "lowY0"), (isDirty t "lowX1"),
    (isDirty t "lowY1"), (isDirty t "highX0"), (isDirty t "highY0"),
    (isDirty t "highX1"), (isDirty t "highY1"); reflexivity.
Qed.

Lemma wickDirty_true s key :
  key ∈ wickKeys → isDirty s key = true → wickDirty s = true.
Proof.
  intros Hin Hd. unfold wickDirty. apply existsb_exists.
  exists key. split; [by apply list_elem_of_In | done].
Qed.

Lemma wickDirty_false s :
  (∀ key, key ∈ wickKeys → isDirty s key = false) → wickDirty s = false.
Proof.
  intros Hclean. unfold wickDirty.
  destruct (existsb (isDirty s) wickKeys) eqn:E; [| done].
  apply existsb_exists in E as (k & Hin & Hk).
  apply list_elem_of_In in Hin. rewrite (Hclean k Hin) in Hk. done.
Qed.

(** The inherited step leaves the dirty flags as they are: they are reset
    after the change was applied, not before. *)
Hypothesis super_keeps_dirty :
  ∀ s, _dirty (super_beforeChanged s) = _dirty s.

Lemma isDirty_super s key :
  isDirty (super_beforeChanged s) key = isDirty s key.
Proof. unfold isDirty. by rewrite super_keeps_dirty. Qed.

(** C8.  A change of any of the eight wick coordinates sets [_clear], so
    that the next draw starts from a cleared path; more generally a dirty
    wick coordinate does.  A change of an attribute that is none of the
    eight, on a shape whose wick coordinates are clean, makes the override
    add nothing to the inherited [_beforeChanged]: it does not set the
    flag. *)
Theorem wick_change_sets_clear (s : Shape) :
  (∀ key value, key ∈ wickKeys →
     _clear (_beforeChanged super_beforeChanged (set key value s)) = true)
  ∧ (∀ key, key ∈ wickKeys → isDirty s key = true →
     _clear (_beforeChanged super_beforeChanged s) = true)
  ∧ (∀ key, key ∉ wickKeys →
     (∀ k, k ∈ wickKeys → isDirty s k = false) →
     _beforeChanged super_beforeChanged (_markDirtyKey key s)
     = super_beforeChanged (_markDirtyKey key s)).
Proof.
  split; [| split].
  - intros key value Hin. rewrite _beforeChanged_wickDirty.
    rewrite (wickDirty_true _ key Hin); [done |].
    rewrite isDirty_super. apply isDirty_set.
  - intros key Hin Hd. rewrite _beforeChanged_wickDirty.
    rewrite (wickDirty_true _ key Hin); [done |].
    by rewrite isDirty_super.
  - intros key Hni Hclean. rewrite _beforeChanged_wickDirty.
    rewrite wickDirty_false; [done |].
    intros k Hk. rewrite isDirty_super.
    rewrite isDirty_markDirtyKey_ne; [by apply Hclean |].
    intros ->. by apply Hni.
Qed.

(** C9.  The draw first runs the inherited draw of the box, then adds
    exactly four calls to the display: the segment from [(lowX0, lowY0)] to
    [(lowX1, lowY1)] and the segment from [(highX0, highY0)] to
    [(highX1, highY1)], a coordinate that is not set counting as [0].  The
    method is total: it returns for every shape, also when coordinates are
    missing or a segment has no length.  Nothing but the display changes. *)
Theorem draw_body_then_wicks (s : Shape) :
  let body := super_draw s in
  let coordinate key := default 0%float (_settings body !! key) in
  _display (_draw super_draw s)
  = _display body
      ++ [ moveTo (coordinate "lowX0") (coordinate "lowY0");
           lineTo (coordinate "lowX1") (coordinate "lowY1");
           moveTo (coordinate "highX0") (coordinate "highY0");
           lineTo (coordinate "highX1") (coordinate "highY1") ]
  ∧ _settings (_draw super_draw s) = _settings body
  ∧ _dirty (_draw super_draw s) = _dirty body
  ∧ _clear (_draw super_draw s) = _clear body.
Proof.
  intros body coordinate. unfold _draw. fold body. simpl.
  unfold get. simpl. unfold coordinate.
  rewrite <- !app_assoc. simpl.
  split; [reflexivity |]. split; [reflexivity |]. split; reflexivity.
Qed.

(** The override can ask for a full redraw and can never call one off: it
    changes nothing but [_clear], leaves a [_clear] that the inherited step
    raised as it is, and raises it only for a dirty wick coordinate. *)
Theorem beforeChanged_only_raises_clear (s : Shape) :
  let inherited := super_beforeChanged s in
  _settings (_beforeChanged super_beforeChanged s) = _settings inherited
  ∧ _dirty (_beforeChanged super_beforeChanged s) = _dirty inherited
  ∧ _display (_beforeChanged super_beforeChanged s) = _display inherited
  ∧ _clear (_beforeChanged super_beforeChanged s)
    = _clear inherited || wickDirty inherited.
Proof.
  intros inherited. rewrite _beforeChanged_wickDirty. fold inherited.
  destruct (wickDirty inherited); simpl; [| by rewrite orb_false_r].
  by rewrite orb_true_r.
Qed.

End CandlestickFacts.

Section CandlestickInstances.
Import Candlestick.

Lemma sample_super_keeps_dirty s :
  _dirty (sample_super_beforeChanged s) = _dirty s.
Proof.
  unfold sample_super_beforeChanged.
  by destruct (isDirty s "cornerRadiusTL").
Qed.

(** On a shape that was never drawn: a change of [lowX0] or of [highY1]
    sets the flag, a change of [orientation] does not. *)
Lemma wick_change_sets_clear_witness :
  _clear (_beforeChanged sample_super_beforeChanged
            (set "lowX0" 1%float sample_shape)) = true
  ∧ _clear (_beforeChanged sample_super_beforeChanged
              (set "highY1" 7%float sample_shape)) = true
  ∧ _clear (_beforeChanged sample_super_beforeChanged
              (_markDirtyKey "orientation" sample_shape)) = false.
Proof.
  destruct (wick_change_sets_clear sample_super_beforeChanged
              sample_super_keeps_dirty sample_shape) as (Hset & _ & Hother).
  split; [| split].
  - apply Hset. by apply (bool_decide_unpack _).
  - apply Hset. by apply (bool_decide_unpack _).
  - rewrite Hother; [reflexivity | by apply (bool_decide_unpack _) |].
    intros k _. reflexivity.
Defined.

(** Missing coordinates: two segments of no length at the origin, and no
    error. *)
Example draw_without_coordinates :
  _display (_draw (λ s, s) sample_shape)
  = [ moveTo 0 0; lineTo 0 0; moveTo 0 0; lineTo 0 0 ].
Proof. reflexivity. Qed.

Example draw_with_coordinates :
  _display (_draw (λ s, s)
              (set "highY1" 9%float (set "highX1" 4%float
                (set "highY0" 7%float (set "highX0" 4%float
                  (set "lowY1" 1%float (set "lowX1" 4%float
                    (set "lowY0" 3%float (set "lowX0" 4%float sample_shape)))))))))
  = [ moveTo 4 3; lineTo 4 1; moveTo 4 7; lineTo 4 9 ].
Proof. reflexivity. Qed.

End CandlestickInstances.

(* ===================================================================== *)
(** ** Properties of MapPointSeries *)
(* ===================================================================== *)

(** Evaluation of the store operations. *)
Ltac run :=
  repeat first
    [ progress (unfold mbind, mret, MapPointSeries.M_bind, MapPointSeries.M_ret,
                  MapPointSeries.sprite_get, MapPointSeries.sprite_update,
                  MapPointSeries.item_get, MapPointSeries.item_set,
                  MapPointSeries.emit; simpl)
    | match goal with
      | H : ?l !! ?i = Some _ |- context [?l !! ?i] => rewrite H
      | |- context [<[?i := ?v]> ?l !! ?i] =>
          rewrite (list_lookup_insert_eq l i v)
            by (rewrite ?length_insert; eauto using lookup_lt_Some)
      end ].

Section Placement.
Import MapPointSeries.

(** *** Running the operations *)

Lemma run_bind {A B} (m : M A) (f : A → M B) w :
  (m ≫= f) w = match m w with Ok a w' => f a w' | TypeError => TypeError end.
Proof. reflexivity. Qed.

Lemma run_ret {A} (a : A) w : (mret a : M A) w = Ok a w.
Proof. reflexivity. Qed.

Lemma each_cons {A S} (f : A → S → M S) a l s w :
  each f (a :: l) s w
  = match f a s w with Ok s' w' => each f l s' w' | TypeError => TypeError end.
Proof. reflexivity. Qed.

Lemma run_item_get {A} (field : DataItem → A) r d w :
  items w !! r = Some d → item_get (Some r) field w = Ok (field d) w.
Proof. intros H. unfold item_get. simpl. by rewrite H. Qed.

Lemma run_sprite_get {A} (field : Sprite → A) sp s w :
  sprites w !! sp = Some s → sprite_get sp field w = Ok (field s) w.
Proof. intros H. unfold sprite_get. by rewrite H. Qed.

Lemma run_item_set r key update d w :
  items w !! r = Some d →
  item_set (Some r) key update w
  = Ok () {| items := <[ r := update d ]> (items w); sprites := sprites w;
             log := log w ++ [dataItem_set r key] |}.
Proof. intros H. unfold item_set. by rewrite H. Qed.

Lemma run_sprite_update sp key update s w :
  sprites w !! sp = Some s →
  sprite_update sp key update w
  = Ok () {| items := items w; sprites := <[ sp := update s ]> (sprites w);
             log := log w ++ [sprite_set sp key] |}.
Proof. intros H. unfold sprite_update. by rewrite H. Qed.

Lemma lookup_insert_here {A} (l : list A) i a b :
  l !! i = Some a → <[ i := b ]> l !! i = Some b.
Proof. intros H. apply list_lookup_insert_eq. by eapply lookup_lt_Some. Qed.

Ltac fin :=
  rewrite ?run_ret; simpl;
  rewrite ?list_insert_insert_eq, ?app_nil_r, <- ?app_assoc;
  try reflexivity.

Variable isNumber : float → bool.
Variable getAngle : IPoint → IPoint → float.
Variable this : Self.

Local Abbreviation resolved := (resolved_item isNumber getAngle this).
Local Abbreviation res_events := (resolution_events isNumber getAngle this).
Local Abbreviation res_world := (resolved_world isNumber getAngle this).

(** *** The calls as equations *)

Lemma run_positionBulletReal c sp s r d g coordinates w :
  chart this = Some c →
  sprites w !! sp = Some s → dataItem s = Some r → items w !! r = Some d →
  _positionBulletReal this sp g coordinates w
  = Ok () {| items := items w;
             sprites := <[ sp := placed_sprite this c g coordinates d s ]> (sprites w);
             log := log w ++ placement_events c sp coordinates d |}.
Proof.
  intros Hc Hs Hr Hd. unfold _positionBulletReal. rewrite Hc.
  unfold placed_sprite, placement_events, is_visible.
  destruct (projection c coordinates) as [[x0 y0]|] eqn:Hxy;
    destruct (truthy (autoRotate d)) eqn:Hrot; run; rewrite ?Hr; run;
    rewrite ?Hrot; run; rewrite ?list_insert_insert_eq, <- ?app_assoc; simpl;
    unfold with_rotation, with_visible, with_y, with_x; simpl; rewrite ?Hr;
    destruct (geoPath c g), (truthy (clipFront this)), (truthy (clipBack this));
    reflexivity.
Qed.

Lemma run_positionBulletReal_no_chart sp g co w :
  chart this = None → _positionBulletReal this sp g co w = Ok () w.
Proof. intros Hc. unfold _positionBulletReal. by rewrite Hc. Qed.

Lemma run_each_lineId r id ss : ∀ w line d,
  items w !! r = Some d →
  each (lineId_callback (Some r) id) ss line w
  = Ok (from_option mapLine line (last (line_matches id ss)))
       {| items := <[ r := from_option (λ ldi, with_lineDataItem ldi d) d
                             (last (line_matches id ss)) ]> (items w);
          sprites := sprites w;
          log := log w ++ line_scan_events r id ss |}.
Proof.
  induction ss as [|s ss IH]; intros w line d Hd.
  - simpl. rewrite run_ret, app_nil_r, (list_insert_id _ _ _ Hd).
    by destruct w.
  - simpl. rewrite run_bind.
    destruct s as [get | get |]; simpl; rewrite ?run_ret; [| by apply IH ..].
    unfold line_matches; simpl. fold (line_matches id ss).
    destruct (get id) as [ldi|] eqn:Hget; run.
    + erewrite IH by (simpl; by eapply lookup_insert_here). simpl.
      rewrite last_cons, list_insert_insert_eq, <- !app_assoc. simpl.
      by destruct (last (line_matches id ss)).
    + erewrite IH by (simpl; eassumption). simpl.
      by rewrite <- !app_assoc.
Qed.

Lemma run_each_polygonId r id ss : ∀ w polygon d,
  items w !! r = Some d →
  each (polygonId_callback (Some r) id) ss polygon w
  = Ok (from_option mapPolygon polygon (last (polygon_matches id ss)))
       {| items := <[ r := from_option (λ pdi, with_polygonDataItem pdi d) d
                             (last (polygon_matches id ss)) ]> (items w);
          sprites := sprites w;
          log := log w ++ polygon_scan_events r id ss |}.
Proof.
  induction ss as [|s ss IH]; intros w polygon d Hd.
  - simpl. rewrite run_ret, app_nil_r, (list_insert_id _ _ _ Hd).
    by destruct w.
  - simpl. rewrite run_bind.
    destruct s as [get | get |]; simpl; rewrite ?run_ret; [by apply IH | | by apply IH].
    unfold polygon_matches; simpl. fold (polygon_matches id ss).
    destruct (get id) as [pdi|] eqn:Hget; run.
    + erewrite IH by (simpl; by eapply lookup_insert_here). simpl.
      rewrite last_cons, list_insert_insert_eq, <- !app_assoc. simpl.
      by destruct (last (polygon_matches id ss)).
    + erewrite IH by (simpl; eassumption). simpl.
      by rewrite <- !app_assoc.
Qed.

Lemma run_resolve_line r d w :
  items w !! r = Some d →
  resolve_line this (Some r) w
  = Ok (line_of this d)
       {| items := <[ r := from_option (λ ldi, with_lineDataItem ldi d) d
                             (scanned_line this d) ]> (items w);
          sprites := sprites w;
          log := log w ++ line_events this r d |}.
Proof.
  intros Hd. unfold resolve_line, line_of, scanned_line, line_events.
  rewrite run_bind, (run_item_get _ _ _ _ Hd).
  destruct (lineDataItem d) as [ldi|] eqn:Hl.
  - rewrite run_ret. simpl. rewrite app_nil_r, (list_insert_id _ _ _ Hd).
    by destruct w.
  - rewrite run_bind, (run_item_get _ _ _ _ Hd).
    destruct (truthy_string (lineId d)) as [id|], (chart this) as [c|];
      try (rewrite run_ret; simpl; rewrite app_nil_r, (list_insert_id _ _ _ Hd);
           by destruct w).
    rewrite run_bind. unfold emit at 1.
    erewrite run_each_lineId by (simpl; eassumption). simpl.
    rewrite <- app_assoc. simpl.
    by destruct (last (line_matches id (series c))).
Qed.

Lemma run_resolve_polygon r d w :
  items w !! r = Some d →
  resolve_polygon this (Some r) w
  = Ok (polygon_of this d)
       {| items := <[ r := from_option (λ pdi, with_polygonDataItem pdi d) d
                             (scanned_polygon this d) ]> (items w);
          sprites := sprites w;
          log := log w ++ polygon_events this r d |}.
Proof.
  intros Hd. unfold resolve_polygon, polygon_of, scanned_polygon, polygon_events.
  rewrite run_bind, (run_item_get _ _ _ _ Hd).
  destruct (polygonDataItem d) as [pdi|] eqn:Hl.
  - rewrite run_ret. simpl. rewrite app_nil_r, (list_insert_id _ _ _ Hd).
    by destruct w.
  - rewrite run_bind, (run_item_get _ _ _ _ Hd).
    destruct (truthy_string (polygonId d)) as [id|], (chart this) as [c|];
      try (rewrite run_ret; simpl; rewrite app_nil_r, (list_insert_id _ _ _ Hd);
           by destruct w).
    rewrite run_bind. unfold emit at 1.
    erewrite run_each_polygonId by (simpl; eassumption). simpl.
    rewrite <- app_assoc. simpl.
    by destruct (last (polygon_matches id (series c))).
Qed.

Lemma run_positionBullet b sp s r d w :
  sprite b = Some sp →
  sprites w !! sp = Some s → dataItem s = Some r → items w !! r = Some d →
  _positionBullet isNumber getAngle this b w
  = match target isNumber this b d with
    | Some (g, c) => _positionBulletReal this sp g c (res_world r d w)
    | None => Ok () (res_world r d w)
    end.
Proof.
  intros Hb Hs Hr Hd. unfold _positionBullet. rewrite Hb.
  rewrite run_bind, (run_sprite_get _ _ _ _ Hs), Hr.
  rewrite run_bind, (run_item_get _ _ _ _ Hd).
  rewrite run_bind, (run_item_get _ _ _ _ Hd).
  rewrite run_bind, (run_resolve_line _ _ _ Hd).
  rewrite run_bind.
  erewrite run_resolve_polygon by (simpl; by eapply lookup_insert_here).
  simpl. rewrite list_insert_insert_eq.
  set (d1 := from_option (λ ldi, with_lineDataItem ldi d) d (scanned_line this d)).
  assert (Hpoly : polygon_of this d1 = polygon_of this d)
    by (subst d1; by destruct (scanned_line this d)).
  assert (Hsp : scanned_polygon this d1 = scanned_polygon this d)
    by (subst d1; by destruct (scanned_line this d)).
  assert (Hpe : polygon_events this r d1 = polygon_events this r d)
    by (subst d1; by destruct (scanned_line this d)).
  rewrite Hpoly, Hsp, Hpe.
  set (d2 := from_option (λ pdi, with_polygonDataItem pdi d1) d1 (scanned_polygon this d)).
  assert (Hpos : positionOnLine d2 = positionOnLine d)
    by (subst d2 d1; by destruct (scanned_line this d), (scanned_polygon this d)).
  assert (Hauto : autoRotate d2 = autoRotate d)
    by (subst d2 d1; by destruct (scanned_line this d), (scanned_polygon this d)).
  assert (Hgeo : geometry d2 = geometry d)
    by (subst d2 d1; by destruct (scanned_line this d), (scanned_polygon this d)).
  assert (Hd2 : <[ r := d2 ]> (items w) !! r = Some d2)
    by (by eapply lookup_insert_here).
  unfold resolved_world, resolved_item, resolution_events, target, computed_angle.
  fold d1. fold d2.
  rewrite run_bind. erewrite run_item_get by (simpl; by apply Hd2). rewrite Hpos.
  rewrite run_bind.
  destruct (polygon_of this d) as [polygon|] eqn:Hp; [fin |].
  destruct (line_of this d) as [line|] eqn:Hline;
    destruct (number isNumber (positionOnLine d)) as [p|] eqn:Hnum.
  { rewrite run_bind. erewrite run_item_get by (simpl; by apply Hd2).
    rewrite Hauto. rewrite run_bind.
    destruct (truthy (autoRotate d)), (chart this) as [c|] eqn:Hc;
      [erewrite run_item_set by (simpl; by apply Hd2) | ..]; fin. }
  all: destruct (number isNumber (longitude d)) as [lon|],
         (number isNumber (latitude d)) as [lat|]; try fin.
  all: rewrite run_bind; erewrite run_item_get by (simpl; by apply Hd2);
    rewrite Hgeo; destruct (geometry d) as [[c|cs]|]; try fin.
  all: first
    [ rewrite run_bind;
      match goal with
      | |- context [_positionBulletReal ?t ?a ?g ?c ?w] =>
          by destruct (_positionBulletReal t a g c w) as [[] w'|]
      end
    | by destruct (cs !! default 0 (_index b)) ].
Qed.

(** With a chart, the whole call in one equation. *)
Lemma run_positionBullet_chart c b sp s r d w :
  chart this = Some c →
  sprite b = Some sp →
  sprites w !! sp = Some s → dataItem s = Some r → items w !! r = Some d →
  _positionBullet isNumber getAngle this b w
  = Ok ()
      match target isNumber this b d with
      | Some (g, co) =>
          let d' := resolved_item isNumber getAngle this d in
          {| items := <[ r := d' ]> (items w);
             sprites := <[ sp := placed_sprite this c g co d' s ]> (sprites w);
             log := log w ++ resolution_events isNumber getAngle this r d
                      ++ placement_events c sp co d' |}
      | None => res_world r d w
      end.
Proof.
  intros Hc Hb Hs Hr Hd. rewrite (run_positionBullet b sp s r d w Hb Hs Hr Hd).
  destruct (target isNumber this b d) as [[g co]|]; [| done].
  erewrite (run_positionBulletReal c sp s r) by
    (first [eassumption | simpl; by eapply lookup_insert_here]).
  simpl. by rewrite <- app_assoc.
Qed.

(** *** The data item and the events of a call *)

Lemma resolved_item_lineDataItem d :
  lineDataItem (resolved d)
  = match scanned_line this d with Some l => Some l | None => lineDataItem d end.
Proof.
  unfold resolved_item.
  by destruct (scanned_line this d), (scanned_polygon this d),
    (computed_angle isNumber getAngle this d).
Qed.

Lemma resolved_item_polygonDataItem d :
  polygonDataItem (resolved d)
  = match scanned_polygon this d with Some l => Some l | None => polygonDataItem d end.
Proof.
  unfold resolved_item.
  by destruct (scanned_line this d), (scanned_polygon this d),
    (computed_angle isNumber getAngle this d).
Qed.

Lemma resolved_item_autoRotateAngle d :
  autoRotateAngle (resolved d)
  = match computed_angle isNumber getAngle this d with
    | Some a => Some a
    | None => autoRotateAngle d
    end.
Proof.
  unfold resolved_item.
  by destruct (scanned_line this d), (scanned_polygon this d),
    (computed_angle isNumber getAngle this d).
Qed.

Lemma resolved_item_autoRotate d : autoRotate (resolved d) = autoRotate d.
Proof.
  unfold resolved_item.
  by destruct (scanned_line this d), (scanned_polygon this d),
    (computed_angle isNumber getAngle this d).
Qed.

Lemma truthy_string_Some id : id ≠ ""%string → truthy_string (Some id) = Some id.
Proof. intros H. unfold truthy_string. by destruct (decide (id = ""%string)). Qed.

(** Counting the events of a call. *)
Lemma queries_app k l1 l2 : queries k (l1 ++ l2) = queries k l1 ++ queries k l2.
Proof. apply omap_app. Qed.

Lemma scans_app k l1 l2 : scans k (l1 ++ l2) = scans k l1 + scans k l2.
Proof. unfold scans. by rewrite filter_app, length_app. Qed.

Lemma queries_line_scan_events r id ss :
  queries Line (line_scan_events r id ss)
  = replicate (length (filter is_line_series ss)) id
  ∧ queries Polygon (line_scan_events r id ss) = []
  ∧ scans Line (line_scan_events r id ss) = 0
  ∧ scans Polygon (line_scan_events r id ss) = 0.
Proof.
  induction ss as [|[get|get|] ss (IH1 & IH2 & IH3 & IH4)]; [done | | done | done].
  simpl. change (?a :: ?l ++ ?l') with ((a :: l) ++ l').
  rewrite !queries_app, !scans_app, IH1, IH2, IH3, IH4.
  by destruct (get id).
Qed.

Lemma queries_polygon_scan_events r id ss :
  queries Polygon (polygon_scan_events r id ss)
  = replicate (length (filter is_polygon_series ss)) id
  ∧ queries Line (polygon_scan_events r id ss) = []
  ∧ scans Line (polygon_scan_events r id ss) = 0
  ∧ scans Polygon (polygon_scan_events r id ss) = 0.
Proof.
  induction ss as [|[get|get|] ss (IH1 & IH2 & IH3 & IH4)]; [done | done | | done].
  simpl. change (?a :: ?l ++ ?l') with ((a :: l) ++ l').
  rewrite !queries_app, !scans_app, IH1, IH2, IH3, IH4.
  by destruct (get id).
Qed.

Lemma queries_placement_events k c sp co d :
  queries k (placement_events c sp co d) = []
  ∧ scans k (placement_events c sp co d) = 0.
Proof.
  unfold placement_events.
  by destruct (projection c co), (truthy (autoRotate d)).
Qed.

Lemma events_line_events r d :
  match lineDataItem d, truthy_string (lineId d), chart this with
  | None, Some id, Some c =>
      scans Line (line_events this r d) = 1
      ∧ queries Line (line_events this r d)
        = replicate (length (filter is_line_series (series c))) id
  | _, _, _ => line_events this r d = []
  end
  ∧ scans Polygon (line_events this r d) = 0
  ∧ queries Polygon (line_events this r d) = [].
Proof.
  unfold line_events.
  destruct (lineDataItem d), (truthy_string (lineId d)) as [id|],
    (chart this) as [c|]; try done.
  destruct (queries_line_scan_events r id (series c)) as (H1 & H2 & H3 & H4).
  change (?a :: ?l) with ([a] ++ l).
  by rewrite !scans_app, !queries_app, H1, H2, H3, H4.
Qed.

Lemma events_polygon_events r d :
  match polygonDataItem d, truthy_string (polygonId d), chart this with
  | None, Some id, Some c =>
      scans Polygon (polygon_events this r d) = 1
      ∧ queries Polygon (polygon_events this r d)
        = replicate (length (filter is_polygon_series (series c))) id
  | _, _, _ => polygon_events this r d = []
  end
  ∧ scans Line (polygon_events this r d) = 0
  ∧ queries Line (polygon_events this r d) = [].
Proof.
  unfold polygon_events.
  destruct (polygonDataItem d), (truthy_string (polygonId d)) as [id|],
    (chart this) as [c|]; try done.
  destruct (queries_polygon_scan_events r id (series c)) as (H1 & H2 & H3 & H4).
  change (?a :: ?l) with ([a] ++ l).
  by rewrite !scans_app, !queries_app, H1, H2, H3, H4.
Qed.

Lemma events_resolution_events k r d :
  scans k (res_events r d)
  = scans k (line_events this r d) + scans k (polygon_events this r d)
  ∧ queries k (res_events r d)
    = queries k (line_events this r d) ++ queries k (polygon_events this r d).
Proof.
  unfold resolution_events. rewrite !scans_app, !queries_app.
  destruct (computed_angle isNumber getAngle this d); simpl;
    rewrite ?app_nil_r; split; first [done | unfold scans; simpl; lia].
Qed.

Lemma in_line_events r d e :
  e ∈ line_events this r d →
  lineDataItem d = None
  ∧ (e = series_each Line ∨ (∃ id, e = getDataItemById_call Line id)
     ∨ e = dataItem_set r "lineDataItem").
Proof.
  unfold line_events.
  destruct (lineDataItem d), (truthy_string (lineId d)) as [id|],
    (chart this) as [c|]; try (by intros ?%elem_of_nil).
  intros [-> | Hin]%elem_of_cons; [by auto |]. split; [done |].
  induction (series c) as [|[get|get|] ss IH]; simpl in Hin;
    [by apply elem_of_nil in Hin | | by auto | by auto].
  apply elem_of_cons in Hin as [-> | Hin]; [by eauto |].
  apply elem_of_app in Hin as [Hin | Hin]; [| by auto].
  destruct (get id); [| by apply elem_of_nil in Hin].
  apply elem_of_cons in Hin as [-> | Hin]; [by auto |].
  by apply elem_of_nil in Hin.
Qed.

Lemma in_polygon_events r d e :
  e ∈ polygon_events this r d →
  polygonDataItem d = None
  ∧ (e = series_each Polygon ∨ (∃ id, e = getDataItemById_call Polygon id)
     ∨ e = dataItem_set r "polygonDataItem").
Proof.
  unfold polygon_events.
  destruct (polygonDataItem d), (truthy_string (polygonId d)) as [id|],
    (chart this) as [c|]; try (by intros ?%elem_of_nil).
  intros [-> | Hin]%elem_of_cons; [by auto |]. split; [done |].
  induction (series c) as [|[get|get|] ss IH]; simpl in Hin;
    [by apply elem_of_nil in Hin | by auto | | by auto].
  apply elem_of_cons in Hin as [-> | Hin]; [by eauto |].
  apply elem_of_app in Hin as [Hin | Hin]; [| by auto].
  destruct (get id); [| by apply elem_of_nil in Hin].
  apply elem_of_cons in Hin as [-> | Hin]; [by auto |].
  by apply elem_of_nil in Hin.
Qed.

Lemma in_placement_events c sp co d e :
  e ∈ placement_events c sp co d → ∃ key, e = sprite_set sp key.
Proof.
  unfold placement_events.
  destruct (projection c co), (truthy (autoRotate d)); simpl; intros Hin;
    repeat (apply elem_of_cons in Hin as [-> | Hin]; [by eauto |]);
    by apply elem_of_nil in Hin.
Qed.

(** What one call does, with or without a chart. *)
Lemma positionBullet_effect b sp s r d w :
  sprite b = Some sp →
  sprites w !! sp = Some s → dataItem s = Some r → items w !! r = Some d →
  ∃ s' evs,
    _positionBullet isNumber getAngle this b w
    = Ok () {| items := <[ r := resolved d ]> (items w);
               sprites := <[ sp := s' ]> (sprites w);
               log := log w ++ res_events r d ++ evs |}
    ∧ dataItem s' = dataItem s
    ∧ ∀ e, e ∈ evs → ∃ key, e = sprite_set sp key.
Proof.
  intros Hb Hs Hr Hd. rewrite (run_positionBullet b sp s r d w Hb Hs Hr Hd).
  assert (Hnone : ∃ s' evs,
    Ok () (res_world r d w)
    = Ok () {| items := <[ r := resolved d ]> (items w);
               sprites := <[ sp := s' ]> (sprites w);
               log := log w ++ res_events r d ++ evs |}
    ∧ dataItem s' = dataItem s
    ∧ ∀ e, e ∈ evs → ∃ key, e = sprite_set sp key).
  { exists s, []. unfold resolved_world.
    rewrite (list_insert_id _ _ _ Hs), app_nil_r.
    repeat split. by intros e ?%elem_of_nil. }
  destruct (target isNumber this b d) as [[g co]|]; [| done].
  destruct (chart this) as [c|] eqn:Hc.
  - erewrite (run_positionBulletReal c sp s r) by
      (first [eassumption | simpl; by eapply lookup_insert_here]).
    eexists _, _. simpl. rewrite <- app_assoc. split; [reflexivity |].
    split; [done |]. apply in_placement_events.
  - by rewrite run_positionBulletReal_no_chart.
Qed.

Lemma bullet_of_insert w w' r sp s s' :
  sprites w !! sp = Some s → dataItem s' = dataItem s →
  sprites w' = <[ sp := s' ]> (sprites w) →
  ∀ b, bullet_of w' r b = bullet_of w r b.
Proof.
  intros Hs Hdi Hw' b. unfold bullet_of. rewrite Hw'.
  destruct (sprite b) as [sp'|]; [| done].
  destruct (decide (sp = sp')) as [<- | Hne].
  - by rewrite (lookup_insert_here _ _ _ _ Hs), Hs, Hdi.
  - by rewrite list_lookup_insert_ne.
Qed.

Lemma placement_step r d w b :
  items w !! r = Some d → bullet_of w r b = true →
  ∃ w' d' evs,
    _positionBullet isNumber getAngle this b w = Ok () w'
    ∧ items w' !! r = Some d'
    ∧ log w' = log w ++ evs
    ∧ (∀ b', bullet_of w' r b' = bullet_of w r b')
    ∧ (∀ l, lineDataItem d = Some l →
         lineDataItem d' = Some l
         ∧ scans Line evs = 0 ∧ queries Line evs = []
         ∧ dataItem_set r "lineDataItem" ∉ evs)
    ∧ (∀ p, polygonDataItem d = Some p →
         polygonDataItem d' = Some p
         ∧ scans Polygon evs = 0 ∧ queries Polygon evs = []
         ∧ dataItem_set r "polygonDataItem" ∉ evs).
Proof.
  intros Hd Hb. unfold bullet_of in Hb.
  destruct (sprite b) as [sp|] eqn:Hsp.
  - destruct (sprites w !! sp) as [s|] eqn:Hs; [| done].
    apply bool_decide_eq_true_1 in Hb.
    destruct (positionBullet_effect b sp s r d w Hsp Hs Hb Hd)
      as (s' & evs & -> & Hdi & Hevs).
    eexists _, _, _. split; [reflexivity |]. simpl.
    split; [by eapply lookup_insert_here |]. split; [reflexivity |].
    split; [by eapply bullet_of_insert |].
    assert (Htail : ∀ k, scans k evs = 0 ∧ queries k evs = []).
    { intros k. clear -Hevs. induction evs as [|e evs IH]; [done |].
      destruct (Hevs e) as [key ->]; [by left |].
      destruct IH as [IH1 IH2]; [intros e' He'; apply Hevs; by right |].
      split; [| done]. unfold scans in *. by rewrite filter_cons_False. }
    pose proof (events_line_events r d) as (HL & HL1 & HL2).
    pose proof (events_polygon_events r d) as (HP & HP1 & HP2).
    split.
    + intros l Hl. rewrite resolved_item_lineDataItem. unfold scanned_line.
      rewrite Hl. split; [done |]. rewrite Hl in HL.
      rewrite scans_app, queries_app.
      destruct (events_resolution_events Line r d) as [-> ->].
      destruct (Htail Line) as [-> ->].
      rewrite HL, HP1, HP2. repeat split; try done.
      unfold resolution_events. rewrite HL. simpl.
      rewrite !elem_of_app. intros [[Hin | Hin] | Hin].
      * apply in_polygon_events in Hin as [_ [? | [[? ?] | ?]]]; done.
      * destruct (computed_angle isNumber getAngle this d);
          [| by apply elem_of_nil in Hin].
        apply elem_of_cons in Hin as [? | Hin]; [done |].
        by apply elem_of_nil in Hin.
      * by destruct (Hevs _ Hin).
    + intros p Hp. rewrite resolved_item_polygonDataItem. unfold scanned_polygon.
      rewrite Hp. split; [done |]. rewrite Hp in HP.
      rewrite scans_app, queries_app.
      destruct (events_resolution_events Polygon r d) as [-> ->].
      destruct (Htail Polygon) as [-> ->].
      rewrite HP, HL1, HL2. repeat split; try done.
      unfold resolution_events. rewrite HP. simpl.
      rewrite !elem_of_app. intros [[Hin | Hin] | Hin].
      * apply in_line_events in Hin as [_ [? | [[? ?] | ?]]]; done.
      * destruct (computed_angle isNumber getAngle this d);
          [| by apply elem_of_nil in Hin].
        apply elem_of_cons in Hin as [? | Hin]; [done |].
        by apply elem_of_nil in Hin.
      * by destruct (Hevs _ Hin).
  - exists w, d, []. unfold _positionBullet. rewrite Hsp.
    rewrite app_nil_r. repeat split; try done; by intros ?%elem_of_nil.
Qed.

(** A data item with nothing to resolve reaches the final placement in
    the world it started from. *)
Lemma resolved_world_plain r d w :
  items w !! r = Some d →
  lineDataItem d = None → lineId d = None →
  polygonDataItem d = None → polygonId d = None →
  res_world r d w = w.
Proof.
  intros Hd Hl Hlid Hp Hpid.
  unfold resolved_world, resolved_item, resolution_events, computed_angle,
    line_events, polygon_events, polygon_of, line_of, scanned_line, scanned_polygon.
  rewrite Hl, Hlid, Hp, Hpid. simpl.
  rewrite app_nil_r, (list_insert_id _ _ _ Hd). by destruct w.
Qed.

(** *** Marker creation *)

(** Marker creation. *)
Lemma numbered_S base index n :
  numbered base index (S n)
  = {| sprite := Some base; _index := index 0 |}
      :: numbered (S base) (λ m, index (S m)) n.
Proof.
  unfold numbered. simpl. rewrite Nat.add_0_r. f_equal.
  rewrite <- fmap_S_seq, <- list_fmap_compose. apply list_fmap_ext.
  intros _ m _. simpl. by rewrite Nat.add_succ_r.
Qed.

Lemma numbered_app base index n1 n2 :
  numbered base index (n1 + n2)
  = numbered base index n1 ++ numbered (base + n1) (λ m, index (n1 + m)) n2.
Proof.
  unfold numbered. rewrite seq_app, fmap_app. f_equal. simpl.
  replace (seq n1 n2) with (Nat.add n1 <$> seq 0 n2)
    by (by rewrite fmap_add_seq, Nat.add_0_r).
  rewrite <- list_fmap_compose. apply list_fmap_ext.
  intros _ m _. simpl. by rewrite Nat.add_assoc.
Qed.

Lemma numbered_lookup base index n m :
  m < n → numbered base index n !! m
          = Some {| sprite := Some (base + m); _index := index m |}.
Proof.
  intros Hm. unfold numbered. rewrite list_lookup_fmap.
  by rewrite (lookup_seq_lt _ _ _ Hm).
Qed.

Lemma numbered_length base index n : length (numbered base index n) = n.
Proof. unfold numbered. by rewrite length_fmap, length_seq. Qed.

Lemma with_bullets_id d : with_bullets (bullets d) d = d.
Proof. by destruct d. Qed.

Lemma run_makeBullet r d f index w :
  items w !! r = Some d →
  ∃ s,
    _makeBullet r f index w
    = Ok () {| items := <[ r := with_bullets
                 (bullets d ++ [{| sprite := Some (length (sprites w));
                                   _index := index |}]) d ]> (items w);
               sprites := sprites w ++ [s];
               log := log w |}
    ∧ dataItem s = Some r.
Proof. intros Hd. unfold _makeBullet. rewrite Hd. by eexists. Qed.

Lemma run_each_coordinates r f (cs : list Position) : ∀ w d i,
  items w !! r = Some d →
  ∃ new,
    each (coordinates_callback r f) cs i w
    = Ok (i + length cs)
         {| items := <[ r := with_bullets
                (bullets d ++ numbered (length (sprites w)) (λ j, Some (i + j))
                                (length cs)) d ]> (items w);
            sprites := sprites w ++ new;
            log := log w |}
    ∧ length new = length cs
    ∧ Forall (λ s, dataItem s = Some r) new.
Proof.
  induction cs as [|c cs IH]; intros w d i Hd.
  - exists []. simpl. rewrite run_ret, !app_nil_r, Nat.add_0_r.
    split; [| done]. unfold numbered. simpl.
    rewrite with_bullets_id, (list_insert_id _ _ _ Hd).
    by destruct w.
  - destruct (run_makeBullet r d f (Some i) w Hd) as (s0 & Hrun & Hs0).
    rewrite each_cons. unfold coordinates_callback at 1.
    rewrite run_bind, Hrun, run_ret.
    match type of Hrun with
    | _ = Ok () ?w1 =>
        destruct (IH w1 _ (S i) (lookup_insert_here _ _ _ _ Hd))
          as (new & -> & Hlen & Hall)
    end.
    exists (s0 :: new). simpl.
    rewrite list_insert_insert_eq, <- (app_assoc (sprites w)), <- !app_assoc.
    rewrite numbered_S, Nat.add_0_r, length_app, Nat.add_1_r, Nat.add_succ_r.
    split; [| split; [by rewrite Hlen | by constructor]].
    replace (numbered (S (length (sprites w))) (λ m, Some (i + S m)) (length cs))
      with (numbered (S (length (sprites w))) (λ j, Some (S (i + j))) (length cs));
      [done |].
    unfold numbered. apply list_fmap_ext. intros _ m _.
    by rewrite Nat.add_succ_r.
Qed.

Lemma run_each_bullets_MultiPoint r cs fs : ∀ w d,
  items w !! r = Some d → geometry d = Some (MultiPoint cs) →
  ∃ new,
    each (bullets_callback r) fs () w
    = Ok () {| items := <[ r := with_bullets
                 (bullets d ++ numbered (length (sprites w))
                                 (λ m, Some (m mod length cs))
                                 (length fs * length cs)) d ]> (items w);
               sprites := sprites w ++ new;
               log := log w |}
    ∧ length new = length fs * length cs
    ∧ Forall (λ s, dataItem s = Some r) new.
Proof.
  induction fs as [|f fs IH]; intros w d Hd Hg.
  - exists []. simpl. rewrite run_ret, app_nil_r. unfold numbered. simpl.
    rewrite app_nil_r, with_bullets_id, (list_insert_id _ _ _ Hd).
    by destruct w.
  - rewrite each_cons. unfold bullets_callback at 1.
    rewrite !run_bind, (run_item_get _ _ _ _ Hd), Hg. cbv zeta.
    destruct (run_each_coordinates r f cs w d 0 Hd) as (new1 & Hrun1 & Hlen1 & Hall1).
    rewrite run_bind, Hrun1, run_ret.
    match type of Hrun1 with
    | _ = Ok _ ?w1 =>
        destruct (IH w1 _ (lookup_insert_here _ _ _ _ Hd) Hg)
          as (new2 & -> & Hlen2 & Hall2)
    end.
    exists (new1 ++ new2). simpl.
    rewrite list_insert_insert_eq, <- (app_assoc (sprites w)), <- !app_assoc.
    rewrite !length_app, Hlen1, Hlen2.
    split; [| split; [done | by apply Forall_app]].
    rewrite numbered_app.
    replace (numbered (length (sprites w)) (λ m, Some (m mod length cs)) (length cs))
      with (numbered (length (sprites w)) (λ j, Some (0 + j)) (length cs)).
    2:{ unfold numbered. apply list_fmap_ext. intros i m Hm. simpl.
        apply lookup_seq in Hm as [-> Hi]. by rewrite Nat.mod_small. }
    replace (numbered (length (sprites w) + length cs)
               (λ m, Some ((length cs + m) mod length cs)) (length fs * length cs))
      with (numbered (length (sprites w) + length cs)
               (λ m, Some (m mod length cs)) (length fs * length cs)); [done |].
    unfold numbered. apply list_fmap_ext. intros i m Hm. simpl.
    rewrite (Nat.add_comm (length cs) m).
    by rewrite <- (Nat.Div0.mod_add m 1 (length cs)), Nat.mul_1_l.
Qed.

Lemma each_None r fs : ∀ w d,
  items w !! r = Some d → geometry d = None →
  each (bullets_callback r) fs () w = Ok () w.
Proof.
  induction fs as [|f fs IH]; intros w d Hd Hg; [done |].
  rewrite each_cons. unfold bullets_callback at 1.
  rewrite !run_bind, (run_item_get _ _ _ _ Hd), Hg, run_ret. by eapply IH.
Qed.

Lemma run_each_bullets_Point r c0 fs : ∀ w d,
  items w !! r = Some d → geometry d = Some (Point c0) →
  ∃ new,
    each (bullets_callback r) fs () w
    = Ok () {| items := <[ r := with_bullets
                 (bullets d ++ numbered (length (sprites w)) (λ _, None)
                                 (length fs)) d ]> (items w);
               sprites := sprites w ++ new;
               log := log w |}
    ∧ length new = length fs
    ∧ Forall (λ s, dataItem s = Some r) new.
Proof.
  induction fs as [|f fs IH]; intros w d Hd Hg.
  - exists []. simpl. rewrite run_ret, app_nil_r. unfold numbered. simpl.
    rewrite app_nil_r, with_bullets_id, (list_insert_id _ _ _ Hd).
    by destruct w.
  - rewrite each_cons. unfold bullets_callback at 1.
    rewrite !run_bind, (run_item_get _ _ _ _ Hd), Hg.
    destruct (run_makeBullet r d f None w Hd) as (s0 & Hrun & Hs0).
    rewrite Hrun.
    match type of Hrun with
    | _ = Ok _ ?w1 =>
        destruct (IH w1 _ (lookup_insert_here _ _ _ _ Hd) Hg)
          as (new2 & -> & Hlen2 & Hall2)
    end.
    exists (s0 :: new2). simpl.
    rewrite list_insert_insert_eq, <- (app_assoc (sprites w)), <- !app_assoc.
    rewrite numbered_S, length_app, Nat.add_1_r, Hlen2.
    split; [done | split; [done | by constructor]].
Qed.

Lemma made_sprite_lookup (old new : list Sprite) r m :
  Forall (λ s, dataItem s = Some r) new → m < length new →
  ∃ s, (old ++ new) !! (length old + m) = Some s ∧ dataItem s = Some r.
Proof.
  intros Hall Hm. destruct (lookup_lt_is_Some_2 new m Hm) as [s Hs].
  exists s. split.
  - by rewrite lookup_app_r, Nat.add_comm, Nat.add_sub by lia.
  - by eapply (Forall_lookup_1 _ _ _ _ Hall).
Qed.

(** *** What the hypotheses of the claims stand for *)

(** An entry is resolved to a polygon through the reference it holds, or,
    when it holds none, through the scan for its identifier; likewise for a
    line.  A reference that is held is used as it is: no scan, no write. *)
Lemma polygon_of_reference d pdi :
  polygonDataItem d = Some pdi → polygon_of this d = mapPolygon pdi.
Proof. intros Hp. unfold polygon_of. by rewrite Hp. Qed.

Lemma polygon_of_identifier c d id :
  chart this = Some c →
  polygonDataItem d = None → polygonId d = Some id → id ≠ ""%string →
  polygon_of this d = last (polygon_matches id (series c)) ≫= mapPolygon.
Proof.
  intros Hc Hp Hid Hne. unfold polygon_of, scanned_polygon.
  by rewrite Hp, Hid, (truthy_string_Some _ Hne), Hc.
Qed.

Lemma line_of_reference d ldi :
  lineDataItem d = Some ldi → line_of this d = mapLine ldi.
Proof. intros Hl. unfold line_of. by rewrite Hl. Qed.

Lemma line_of_identifier c d id :
  chart this = Some c →
  lineDataItem d = None → lineId d = Some id → id ≠ ""%string →
  line_of this d = last (line_matches id (series c)) ≫= mapLine.
Proof.
  intros Hc Hl Hid Hne. unfold line_of, scanned_line.
  by rewrite Hl, Hid, (truthy_string_Some _ Hne), Hc.
Qed.

Lemma resolve_line_cached r d w ldi :
  items w !! r = Some d → lineDataItem d = Some ldi →
  resolve_line this (Some r) w = Ok (mapLine ldi) w.
Proof.
  intros Hd Hl. unfold resolve_line.
  by rewrite run_bind, (run_item_get _ _ _ _ Hd), Hl.
Qed.

Lemma resolve_polygon_cached r d w pdi :
  items w !! r = Some d → polygonDataItem d = Some pdi →
  resolve_polygon this (Some r) w = Ok (mapPolygon pdi) w.
Proof.
  intros Hd Hp. unfold resolve_polygon.
  by rewrite run_bind, (run_item_get _ _ _ _ Hd), Hp.
Qed.

(** Placement needs the chart: a series that has none leaves every sprite
    as it is.  A sprite without data item makes the call throw. *)
Lemma no_chart_no_placement b sp s r d w :
  chart this = None →
  sprite b = Some sp →
  sprites w !! sp = Some s → dataItem s = Some r → items w !! r = Some d →
  ∃ w', _positionBullet isNumber getAngle this b w = Ok () w'
        ∧ sprites w' = sprites w.
Proof.
  intros Hc Hb Hs Hr Hd. rewrite (run_positionBullet b sp s r d w Hb Hs Hr Hd).
  destruct (target isNumber this b d) as [[g co]|].
  - rewrite (run_positionBulletReal_no_chart _ _ _ _ Hc). by eexists.
  - by eexists.
Qed.


(** *** The claims *)




(** C4.  The final placement writes the visibility of the sprite: for a
    geometry the clip predicate accepts it is [false] when [clipFront] is
    [true] and [true] otherwise; for a geometry it rejects it is [false]
    when [clipBack] is [true] and [true] otherwise. *)
Theorem clipping_visibility c sp s r d g co w :
  chart this = Some c →
  sprites w !! sp = Some s → dataItem s = Some r → items w !! r = Some d →
  ∃ w' s',
    _positionBulletReal this sp g co w = Ok () w'
    ∧ sprites w' !! sp = Some s'
    ∧ (geoPath c g = true → clipFront this = Some true → visible s' = Some false)
    ∧ (geoPath c g = true → clipFront this ≠ Some true → visible s' = Some true)
    ∧ (geoPath c g = false → clipBack this = Some true → visible s' = Some false)
    ∧ (geoPath c g = false → clipBack this ≠ Some true → visible s' = Some true).
Proof.
  intros Hc Hs Hr Hd.
  rewrite (run_positionBulletReal c sp s r d g co w Hc Hs Hr Hd).
  eexists _, _. split; [reflexivity |]. simpl.
  split; [by eapply lookup_insert_here |]. simpl. unfold is_visible.
  repeat split; intros -> Hclip.
  - by rewrite Hclip.
  - by destruct (clipFront this) as [[]|].
  - by rewrite Hclip.
  - by destruct (clipBack this) as [[]|].
Qed.



(** C7.  Marker creation for an entry returns; the entry has no bullet
    but the ones it makes.  For a [MultiPoint] geometry of [N] coordinates
    and [F] bullet functions there are [F * N] of them: the bullet at
    position [k * N + j] (function [k], coordinate [j]) has index [j] and a
    sprite bound to the entry, and the placement of that bullet, for an entry
    placed by its geometry, is the final placement of the coordinate at
    index [j].  For a [Point] geometry there are [F], one per function. *)
Theorem bullets_per_coordinate r d w :
  items w !! r = Some d →
  ∃ w' d',
    _makeBullets this r w = Ok () w'
    ∧ items w' !! r = Some d'
    ∧ (∀ cs, geometry d = Some (MultiPoint cs) →
         length (bullets d') = length (bulletFunctions this) * length cs
         ∧ ∀ k j c,
             k < length (bulletFunctions this) → cs !! j = Some c →
             ∃ sp s,
               bullets d' !! (k * length cs + j)
               = Some {| sprite := Some sp; _index := Some j |}
               ∧ sprites w' !! sp = Some s ∧ dataItem s = Some r
               ∧ (lineDataItem d = None → lineId d = None →
                  polygonDataItem d = None → polygonId d = None →
                  number isNumber (longitude d) = None
                  ∨ number isNumber (latitude d) = None →
                  _positionBullet isNumber getAngle this
                    {| sprite := Some sp; _index := Some j |} w'
                  = _positionBulletReal this sp (Point c) c w'))
    ∧ (∀ c0, geometry d = Some (Point c0) →
         length (bullets d') = length (bulletFunctions this)
         ∧ ∀ k,
             k < length (bulletFunctions this) →
             ∃ sp s,
               bullets d' !! k = Some {| sprite := Some sp; _index := None |}
               ∧ sprites w' !! sp = Some s ∧ dataItem s = Some r).
Proof.
  intros Hd. unfold _makeBullets.
  rewrite run_bind. unfold reset_bullets at 1. rewrite Hd.
  set (w0 := {| items := <[ r := with_bullets [] d ]> (items w);
                sprites := sprites w; log := log w |}).
  assert (Hd0 : items w0 !! r = Some (with_bullets [] d))
    by (by eapply lookup_insert_here).
  destruct (geometry d) as [[c0 | cs] |] eqn:Hg.
  - destruct (run_each_bullets_Point r c0 (bulletFunctions this) w0 _ Hd0 Hg)
      as (new & -> & Hlen & Hall).
    eexists _, _. split; [reflexivity |]. simpl.
    split; [by eapply lookup_insert_here |]. split; [done |].
    intros ? [= <-]. simpl. rewrite numbered_length. split; [done |].
    intros k Hk. rewrite <- Hlen in Hk.
    destruct (made_sprite_lookup (sprites w) new r k Hall Hk) as (s & Hs & Hr).
    exists (length (sprites w) + k), s. rewrite Hlen in Hk.
    by rewrite numbered_lookup.
  - destruct (run_each_bullets_MultiPoint r cs (bulletFunctions this) w0 _ Hd0 Hg)
      as (new & -> & Hlen & Hall).
    eexists _, _. split; [reflexivity |]. simpl.
    split; [by eapply lookup_insert_here |]. split; [| done].
    intros ? [= <-]. simpl. rewrite numbered_length. split; [done |].
    intros k j c Hk Hj.
    assert (Hjlt : j < length cs) by (by eapply lookup_lt_Some).
    assert (Hm : k * length cs + j < length (bulletFunctions this) * length cs) by nia.
    rewrite <- Hlen in Hm.
    destruct (made_sprite_lookup (sprites w) new r _ Hall Hm) as (s & Hs & Hr).
    exists (length (sprites w) + (k * length cs + j)), s. rewrite Hlen in Hm.
    rewrite numbered_lookup by done.
    rewrite (Nat.add_comm _ j), Nat.Div0.mod_add, Nat.mod_small by done.
    rewrite (Nat.add_comm j).
    split; [done |]. split; [done |]. split; [done |].
    intros Hl Hlid Hp Hpid Hll.
    match goal with
    | |- _positionBullet _ _ _ ?b ?w1 = _ =>
        erewrite (run_positionBullet b _ s r _ w1)
          by first [done | simpl; by eapply lookup_insert_here]
    end.
    rewrite resolved_world_plain
      by first [done | simpl; by eapply lookup_insert_here].
    unfold target, polygon_of, line_of, scanned_line, scanned_polygon. simpl.
    rewrite Hl, Hlid, Hp, Hpid, Hg. simpl.
    destruct Hll as [-> | ->];
      destruct (number isNumber (positionOnLine d));
      destruct (number isNumber (longitude d));
      destruct (number isNumber (latitude d)); simpl; by rewrite ?Hj.
  - rewrite (each_None r _ w0 _ Hd0 Hg).
    eexists _, _. split; [reflexivity |]. simpl. by split.
Qed.

(** C10.  When the projection has no result, the final placement still
    evaluates the clip predicate and writes the visibility, and still writes
    the rotation when [autoRotate] is set, while [x] and [y] keep the value
    they had. *)
Theorem projection_failure_partial_update c sp s r d g co w :
  chart this = Some c →
  sprites w !! sp = Some s → dataItem s = Some r → items w !! r = Some d →
  projection c co = None →
  ∃ w' s' evs,
    _positionBulletReal this sp g co w = Ok () w'
    ∧ sprites w' !! sp = Some s'
    ∧ log w' = log w ++ evs
    ∧ x s' = x s ∧ y s' = y s
    ∧ visible s' = Some (if geoPath c g
                         then negb (truthy (clipFront this))
                         else negb (truthy (clipBack this)))
    ∧ sprite_set sp "visible" ∈ evs
    ∧ (autoRotate d = Some true →
         rotation s' = Some (default 0%float (autoRotateAngle d))
         ∧ sprite_set sp "rotation" ∈ evs).
Proof.
  intros Hc Hs Hr Hd Hxy.
  rewrite (run_positionBulletReal c sp s r d g co w Hc Hs Hr Hd).
  eexists _, _, _. split; [reflexivity |]. simpl.
  split; [by eapply lookup_insert_here |]. simpl. rewrite Hxy.
  split; [reflexivity |]. unfold placement_events. rewrite Hxy. simpl.
  repeat split; try done.
  - apply elem_of_cons. by left.
  - by rewrite H.
  - rewrite H. simpl. apply elem_of_cons. right. apply elem_of_cons. by left.
Qed.

(** *** Further properties of placement *)

(** The fields a call reads and never writes. *)
Lemma resolved_item_inputs d :
  geometry (resolved d) = geometry d
  ∧ longitude (resolved d) = longitude d
  ∧ latitude (resolved d) = latitude d
  ∧ positionOnLine (resolved d) = positionOnLine d
  ∧ autoRotate (resolved d) = autoRotate d
  ∧ lineId (resolved d) = lineId d
  ∧ polygonId (resolved d) = polygonId d
  ∧ bullets (resolved d) = bullets d.
Proof.
  unfold resolved_item.
  by destruct (scanned_line this d), (scanned_polygon this d),
    (computed_angle isNumber getAngle this d).
Qed.

(** Once a call has run, the next one finds nothing left to scan, the same
    line and the same polygon. *)
Lemma scanned_line_resolved d : scanned_line this (resolved d) = None.
Proof.
  unfold scanned_line at 1. rewrite resolved_item_lineDataItem.
  destruct (resolved_item_inputs d) as (_ & _ & _ & _ & _ & -> & _).
  unfold scanned_line.
  destruct (lineDataItem d), (truthy_string (lineId d)), (chart this); try done.
  by destruct (last _).
Qed.

Lemma scanned_polygon_resolved d : scanned_polygon this (resolved d) = None.
Proof.
  unfold scanned_polygon at 1. rewrite resolved_item_polygonDataItem.
  destruct (resolved_item_inputs d) as (_ & _ & _ & _ & _ & _ & -> & _).
  unfold scanned_polygon.
  destruct (polygonDataItem d), (truthy_string (polygonId d)), (chart this); try done.
  by destruct (last _).
Qed.

Lemma line_of_resolved d : line_of this (resolved d) = line_of this d.
Proof.
  unfold line_of at 1. rewrite scanned_line_resolved, resolved_item_lineDataItem.
  unfold line_of, scanned_line.
  destruct (lineDataItem d), (truthy_string (lineId d)), (chart this); try done.
  by destruct (last _).
Qed.

Lemma polygon_of_resolved d : polygon_of this (resolved d) = polygon_of this d.
Proof.
  unfold polygon_of at 1.
  rewrite scanned_polygon_resolved, resolved_item_polygonDataItem.
  unfold polygon_of, scanned_polygon.
  destruct (polygonDataItem d), (truthy_string (polygonId d)), (chart this);
    try done.
  by destruct (last _).
Qed.

Lemma computed_angle_resolved d :
  computed_angle isNumber getAngle this (resolved d)
  = computed_angle isNumber getAngle this d.
Proof.
  unfold computed_angle. rewrite polygon_of_resolved, line_of_resolved.
  by destruct (resolved_item_inputs d) as (_ & _ & _ & -> & -> & _).
Qed.

Lemma target_resolved b d :
  target isNumber this b (resolved d) = target isNumber this b d.
Proof.
  unfold target. rewrite polygon_of_resolved, line_of_resolved.
  by destruct (resolved_item_inputs d) as (-> & -> & -> & -> & _).
Qed.

Lemma resolved_item_idempotent d : resolved (resolved d) = resolved d.
Proof.
  unfold resolved_item at 1.
  rewrite scanned_line_resolved, scanned_polygon_resolved, computed_angle_resolved.
  simpl. unfold resolved_item.
  by destruct (scanned_line this d), (scanned_polygon this d),
    (computed_angle isNumber getAngle this d).
Qed.

Lemma placed_sprite_idempotent c g co d s :
  placed_sprite this c g co d (placed_sprite this c g co d s)
  = placed_sprite this c g co d s.
Proof.
  unfold placed_sprite. simpl.
  by destruct (projection c co), (truthy (autoRotate d)).
Qed.

Lemma run_positionBullet_no_chart b sp s r d w :
  chart this = None →
  sprite b = Some sp →
  sprites w !! sp = Some s → dataItem s = Some r → items w !! r = Some d →
  _positionBullet isNumber getAngle this b w = Ok () w.
Proof.
  intros Hc Hb Hs Hr Hd. rewrite (run_positionBullet b sp s r d w Hb Hs Hr Hd).
  assert (Hw : res_world r d w = w).
  { unfold resolved_world, resolved_item, resolution_events, computed_angle,
      line_events, polygon_events, scanned_line, scanned_polygon.
    rewrite Hc.
    destruct (lineDataItem d), (truthy_string (lineId d)),
      (polygonDataItem d), (truthy_string (polygonId d)),
      (polygon_of this d), (line_of this d), (number isNumber (positionOnLine d)),
      (truthy (autoRotate d)); simpl;
      rewrite ?app_nil_r, (list_insert_id _ _ _ Hd); by destruct w. }
  rewrite Hw. destruct (target isNumber this b d) as [[g co]|]; [| done].
  by apply run_positionBulletReal_no_chart.
Qed.

(** A series that has no chart places nothing: it scans nothing, computes
    no angle and writes to no sprite; the call returns the world as it
    found it, whatever the entry holds. *)
Theorem placement_needs_chart b sp s r d w :
  chart this = None →
  sprite b = Some sp →
  sprites w !! sp = Some s → dataItem s = Some r → items w !! r = Some d →
  ∃ w',
    _positionBullet isNumber getAngle this b w = Ok () w'
    ∧ items w' = items w ∧ sprites w' = sprites w ∧ log w' = log w.
Proof.
  intros Hc Hb Hs Hr Hd. exists w.
  by rewrite (run_positionBullet_no_chart b sp s r d w Hc Hb Hs Hr Hd).
Qed.



(** The coordinates chosen when neither a polygon, nor a line with a
    position, nor longitude and latitude decide. *)
Lemma target_fallback b d :
  polygon_of this d = None →
  line_of this d = None ∨ number isNumber (positionOnLine d) = None →
  number isNumber (longitude d) = None ∨ number isNumber (latitude d) = None →
  target isNumber this b d
  = match geometry d with
    | Some (Point co) => Some (Point co, co)
    | Some (MultiPoint cs) => co ← cs !! default 0 (_index b); Some (Point co, co)
    | None => None
    end.
Proof.
  intros Hp Hline Hll. unfold target. rewrite Hp.
  destruct Hline as [-> | ->], Hll as [-> | ->];
    destruct (line_of this d), (number isNumber (positionOnLine d)),
      (number isNumber (longitude d)), (number isNumber (latitude d));
    reflexivity.
Qed.

Lemma placed_at_placed_sprite c g co d s :
  placed_at c co s (placed_sprite this c g co d s).
Proof. unfold placed_at, placed_sprite. simpl. by destruct (projection c co). Qed.

Lemma sprite_set_not_resolution r d sp key :
  sprite_set sp key ∉ res_events r d.
Proof.
  unfold resolution_events. rewrite !elem_of_app. intros [Hin | [Hin | Hin]].
  - apply in_line_events in Hin as [_ [? | [[? ?] | ?]]]; done.
  - apply in_polygon_events in Hin as [_ [? | [[? ?] | ?]]]; done.
  - destruct (computed_angle isNumber getAngle this d);
      [| by apply elem_of_nil in Hin].
    apply elem_of_cons in Hin as [? | Hin]; [done |].
    by apply elem_of_nil in Hin.
Qed.

Lemma sprite_events_no_scan sp (evs : list Event) k :
  (∀ e, e ∈ evs → ∃ key, e = sprite_set sp key) →
  scans k evs = 0 ∧ queries k evs = [].
Proof.
  intros Hevs. induction evs as [|e evs IH]; [done |].
  destruct (Hevs e) as [key ->]; [by left |].
  destruct IH as [IH1 IH2]; [intros e' He'; apply Hevs; by right |].
  split; [| done]. unfold scans in *. by rewrite filter_cons_False.
Qed.






(** *** Sequences of calls *)

Lemma resolved_item_no_chart d : chart this = None → resolved d = d.
Proof.
  intros Hc. unfold resolved_item, computed_angle, scanned_line, scanned_polygon.
  rewrite Hc.
  by destruct (lineDataItem d), (truthy_string (lineId d)),
    (polygonDataItem d), (truthy_string (polygonId d)),
    (polygon_of this d), (line_of this d), (number isNumber (positionOnLine d)),
    (truthy (autoRotate d)).
Qed.

Lemma sprite_of_insert w w' r sp s s' :
  sprites w !! sp = Some s → dataItem s' = dataItem s →
  sprites w' = <[ sp := s' ]> (sprites w) →
  ∀ b, sprite_of w' r b = sprite_of w r b.
Proof.
  intros Hs Hdi Hw' b. unfold sprite_of. rewrite Hw'.
  destruct (sprite b) as [sp'|]; [| done].
  destruct (decide (sp = sp')) as [<- | Hne].
  - by rewrite (lookup_insert_here _ _ _ _ Hs), Hs, Hdi.
  - by rewrite list_lookup_insert_ne.
Qed.

Lemma sprite_of_Some w r b :
  sprite_of w r b = true →
  ∃ sp s, sprite b = Some sp ∧ sprites w !! sp = Some s ∧ dataItem s = Some r.
Proof.
  unfold sprite_of. destruct (sprite b) as [sp|]; [| done].
  destruct (sprites w !! sp) as [s|] eqn:Hs; [| done].
  intros Hr%bool_decide_eq_true_1. by exists sp, s.
Qed.

(** One call, on the entry as it was at first or as a call left it. *)
Lemma call_outcome b sp s r d d0 w :
  sprite b = Some sp →
  sprites w !! sp = Some s → dataItem s = Some r → items w !! r = Some d0 →
  d0 = d ∨ d0 = resolved d →
  ∃ evs,
    _positionBullet isNumber getAngle this b w
    = Ok () {| items := <[ r := resolved d ]> (items w);
               sprites := <[ sp := final_sprite isNumber getAngle this b d s ]>
                            (sprites w);
               log := log w ++ evs |}
    ∧ scans Line evs
      = match lineDataItem d0, truthy_string (lineId d0), chart this with
        | None, Some _, Some _ => 1
        | _, _, _ => 0
        end
    ∧ scans Polygon evs
      = match polygonDataItem d0, truthy_string (polygonId d0), chart this with
        | None, Some _, Some _ => 1
        | _, _, _ => 0
        end.
Proof.
  intros Hb Hs Hr Hd Hd0.
  assert (Hres : resolved d0 = resolved d)
    by (destruct Hd0 as [-> | ->]; [done | apply resolved_item_idempotent]).
  assert (Htarget : target isNumber this b d0 = target isNumber this b d)
    by (destruct Hd0 as [-> | ->]; [done | apply target_resolved]).
  unfold final_sprite.
  pose proof (events_line_events r d0) as (HL & HL1 & _).
  pose proof (events_polygon_events r d0) as (HP & HP1 & _).
  assert (Hscans : ∀ tail, (∀ k, scans k tail = 0) →
    scans Line (res_events r d0 ++ tail)
    = match lineDataItem d0, truthy_string (lineId d0), chart this with
      | None, Some _, Some _ => 1
      | _, _, _ => 0
      end
    ∧ scans Polygon (res_events r d0 ++ tail)
      = match polygonDataItem d0, truthy_string (polygonId d0), chart this with
        | None, Some _, Some _ => 1
        | _, _, _ => 0
        end).
  { intros tail Htail. rewrite !scans_app, !Htail.
    destruct (events_resolution_events Line r d0) as [-> _].
    destruct (events_resolution_events Polygon r d0) as [-> _].
    rewrite HL1, HP1, !Nat.add_0_r. split.
    - destruct (lineDataItem d0), (truthy_string (lineId d0)), (chart this);
        first [by rewrite HL | by destruct HL as [-> _]].
    - destruct (polygonDataItem d0), (truthy_string (polygonId d0)), (chart this);
        first [by rewrite HP | by destruct HP as [-> _]]. }
  destruct (chart this) as [c|] eqn:Hc.
  - rewrite (run_positionBullet_chart c b sp s r d0 w Hc Hb Hs Hr Hd).
    rewrite Htarget, Hres.
    destruct (target isNumber this b d) as [[g co]|].
    + eexists. split; [reflexivity |]. apply Hscans.
      intros k. by destruct (queries_placement_events k c sp co (resolved d)).
    + exists (res_events r d0 ++ []). unfold resolved_world.
      rewrite Hres, (list_insert_id _ _ _ Hs), app_nil_r.
      split; [reflexivity |]. rewrite <- (app_nil_r (res_events r d0)).
      by apply Hscans.
  - rewrite (run_positionBullet_no_chart b sp s r d0 w Hc Hb Hs Hr Hd).
    exists []. rewrite app_nil_r, (list_insert_id _ _ _ Hs).
    rewrite <- Hres, (resolved_item_no_chart d0 Hc), (list_insert_id _ _ _ Hd).
    split; [by destruct w |].
    by destruct (lineDataItem d0), (truthy_string (lineId d0)),
      (polygonDataItem d0), (truthy_string (polygonId d0)).
Qed.

Lemma final_sprite_dataItem b d s :
  dataItem (final_sprite isNumber getAngle this b d s) = dataItem s.
Proof.
  unfold final_sprite.
  by destruct (chart this), (target isNumber this b d) as [[g co]|].
Qed.

(** The calls for a list of bullets of one entry, with sprites that are all
    different. *)
Lemma placements_outcome r d bs : ∀ w d0,
  items w !! r = Some d0 → d0 = d ∨ d0 = resolved d →
  forallb (sprite_of w r) bs = true →
  NoDup (sprite <$> bs) →
  ∃ w',
    placements isNumber getAngle this bs w = Ok () w'
    ∧ items w' = match bs with
                 | [] => items w
                 | _ => <[ r := resolved d ]> (items w)
                 end
    ∧ (∀ b sp s, b ∈ bs → sprite b = Some sp → sprites w !! sp = Some s →
         sprites w' !! sp = Some (final_sprite isNumber getAngle this b d s))
    ∧ (∀ sp, Some sp ∉ sprite <$> bs → sprites w' !! sp = sprites w !! sp).
Proof.
  unfold placements.
  induction bs as [|b bs IH]; intros w d0 Hd Hd0 Hbs Hnd.
  - exists w. split; [done |]. split; [done |].
    split; [by intros b sp s ?%elem_of_nil | done].
  - simpl in Hbs. apply andb_prop in Hbs as [Hb Hbs].
    destruct (sprite_of_Some _ _ _ Hb) as (sp & s & Hsp & Hs & Hr).
    destruct (call_outcome b sp s r d d0 w Hsp Hs Hr Hd Hd0) as (evs & Hrun & _).
    rewrite fmap_cons in Hnd. apply NoDup_cons in Hnd as [Hnotin Hnd].
    match type of Hrun with
    | _ = Ok () ?w1 =>
        destruct (IH w1 (resolved d)) as (w' & Hrun' & Hitems & Hin & Hout);
          [simpl; by eapply lookup_insert_here | by right | | exact Hnd |]
    end.
    { rewrite <- Hbs. clear -Hs. induction bs as [|b' bs IHbs]; [done |].
      simpl. rewrite IHbs. f_equal.
      eapply sprite_of_insert; [exact Hs | apply final_sprite_dataItem | done]. }
    exists w'. rewrite each_cons, Hrun. split; [exact Hrun' |].
    split; [| split].
    + rewrite Hitems. simpl.
      destruct bs; [done | by rewrite list_insert_insert_eq].
    + intros b' sp' s' [-> | Hb']%elem_of_cons Hsp' Hs'.
      * rewrite Hsp in Hsp'. injection Hsp' as <-.
        rewrite Hs in Hs'. injection Hs' as <-.
        rewrite Hout by (by rewrite <- Hsp).
        simpl. by eapply lookup_insert_here.
      * apply (Hin b' sp' s' Hb' Hsp'). simpl.
        rewrite list_lookup_insert_ne; [done |].
        intros <-. apply Hnotin. rewrite Hsp, <- Hsp'.
        by apply list_elem_of_fmap_2.
    + intros sp' Hnot. rewrite Hout.
      * simpl. rewrite list_lookup_insert_ne; [done |].
        intros <-. apply Hnot. rewrite fmap_cons, Hsp. by left.
      * intros Hin'. apply Hnot. rewrite fmap_cons. by right.
Qed.

Lemma forallb_sprite_of_insert w w' r sp s s' bs :
  sprites w !! sp = Some s → dataItem s' = dataItem s →
  sprites w' = <[ sp := s' ]> (sprites w) →
  forallb (sprite_of w' r) bs = forallb (sprite_of w r) bs.
Proof.
  intros Hs Hdi Hw'. induction bs as [|b bs IH]; [done |].
  simpl. by rewrite IH, (sprite_of_insert w w' r sp s s' Hs Hdi Hw').
Qed.

Lemma line_lookup_retried c r id bs : ∀ w d,
  chart this = Some c →
  items w !! r = Some d →
  forallb (sprite_of w r) bs = true →
  lineDataItem d = None → lineId d = Some id → id ≠ ""%string →
  line_matches id (series c) = [] →
  ∃ w' d' evs,
    placements isNumber getAngle this bs w = Ok () w'
    ∧ items w' !! r = Some d'
    ∧ lineDataItem d' = None ∧ lineId d' = Some id
    ∧ log w' = log w ++ evs
    ∧ scans Line evs = length bs.
Proof.
  unfold placements.
  induction bs as [|b bs IH]; intros w d Hc Hd Hbs Hl Hid Hne Hnone.
  - exists w, d, []. by rewrite app_nil_r.
  - simpl in Hbs. apply andb_prop in Hbs as [Hb Hbs].
    destruct (sprite_of_Some _ _ _ Hb) as (sp & s & Hsp & Hs & Hr).
    destruct (call_outcome b sp s r d d w Hsp Hs Hr Hd (or_introl eq_refl))
      as (evs & Hrun & Hscans & _).
    rewrite Hl, Hid, (truthy_string_Some _ Hne), Hc in Hscans.
    assert (Hl1 : lineDataItem (resolved d) = None).
    { rewrite resolved_item_lineDataItem. unfold scanned_line.
      by rewrite Hl, Hid, (truthy_string_Some _ Hne), Hc, Hnone. }
    assert (Hid1 : lineId (resolved d) = Some id).
    { by destruct (resolved_item_inputs d) as (_ & _ & _ & _ & _ & -> & _). }
    match type of Hrun with
    | _ = Ok () ?w1 =>
        destruct (IH w1 (resolved d) Hc) as (w' & d' & evs' & Hrun' & Hd' & Hl' & Hid' & Hlog & Hn);
          [simpl; by eapply lookup_insert_here | | done | done | done | done |]
    end.
    { rewrite <- Hbs.
      eapply forallb_sprite_of_insert;
        [exact Hs | apply final_sprite_dataItem | done]. }
    exists w', d', (evs ++ evs'). rewrite each_cons, Hrun.
    split; [exact Hrun' |]. split; [exact Hd' |]. split; [exact Hl' |].
    split; [exact Hid' |]. split; [by rewrite Hlog, app_assoc |].
    rewrite scans_app, Hscans, Hn. done.
Qed.

Lemma polygon_lookup_retried c r id bs : ∀ w d,
  chart this = Some c →
  items w !! r = Some d →
  forallb (sprite_of w r) bs = true →
  polygonDataItem d = None → polygonId d = Some id → id ≠ ""%string →
  polygon_matches id (series c) = [] →
  ∃ w' d' evs,
    placements isNumber getAngle this bs w = Ok () w'
    ∧ items w' !! r = Some d'
    ∧ polygonDataItem d' = None ∧ polygonId d' = Some id
    ∧ log w' = log w ++ evs
    ∧ scans Polygon evs = length bs.
Proof.
  unfold placements.
  induction bs as [|b bs IH]; intros w d Hc Hd Hbs Hl Hid Hne Hnone.
  - exists w, d, []. by rewrite app_nil_r.
  - simpl in Hbs. apply andb_prop in Hbs as [Hb Hbs].
    destruct (sprite_of_Some _ _ _ Hb) as (sp & s & Hsp & Hs & Hr).
    destruct (call_outcome b sp s r d d w Hsp Hs Hr Hd (or_introl eq_refl))
      as (evs & Hrun & _ & Hscans).
    rewrite Hl, Hid, (truthy_string_Some _ Hne), Hc in Hscans.
    assert (Hl1 : polygonDataItem (resolved d) = None).
    { rewrite resolved_item_polygonDataItem. unfold scanned_polygon.
      by rewrite Hl, Hid, (truthy_string_Some _ Hne), Hc, Hnone. }
    assert (Hid1 : polygonId (resolved d) = Some id).
    { by destruct (resolved_item_inputs d) as (_ & _ & _ & _ & _ & _ & -> & _). }
    match type of Hrun with
    | _ = Ok () ?w1 =>
        destruct (IH w1 (resolved d) Hc) as (w' & d' & evs' & Hrun' & Hd' & Hl' & Hid' & Hlog & Hn);
          [simpl; by eapply lookup_insert_here | | done | done | done | done |]
    end.
    { rewrite <- Hbs.
      eapply forallb_sprite_of_insert;
        [exact Hs | apply final_sprite_dataItem | done]. }
    exists w', d', (evs ++ evs'). rewrite each_cons, Hrun.
    split; [exact Hrun' |]. split; [exact Hd' |]. split; [exact Hl' |].
    split; [exact Hid' |]. split; [by rewrite Hlog, app_assoc |].
    rewrite scans_app, Hscans, Hn. done.
Qed.



(** *** Marker creation, once more *)

Lemma forallb_true_intro {A} (f : A → bool) (l : list A) :
  (∀ a, a ∈ l → f a = true) → forallb f l = true.
Proof.
  induction l as [|a l IH]; intros Hall; [done |]. simpl.
  rewrite Hall by (by left). apply IH. intros a' Ha'. apply Hall. by right.
Qed.

Lemma numbered_elem base index n b :
  b ∈ numbered base index n →
  ∃ m, m < n ∧ b = {| sprite := Some (base + m); _index := index m |}.
Proof.
  unfold numbered. intros (m & -> & Hm)%list_elem_of_fmap.
  apply elem_of_seq in Hm. exists m. split; [lia | done].
Qed.

Lemma numbered_NoDup base index n : NoDup (sprite <$> numbered base index n).
Proof.
  unfold numbered. rewrite <- list_fmap_compose.
  apply NoDup_fmap_2; [| apply NoDup_seq].
  intros m1 m2 Heq. simpl in Heq. injection Heq as Heq. lia.
Qed.

(** The bullets made in a row are bullets of the entry, each with a sprite
    of its own among the new ones. *)
Lemma numbered_made (old new : list Sprite) r index n b :
  length new = n → Forall (λ s, dataItem s = Some r) new →
  b ∈ numbered (length old) index n →
  ∃ sp s, sprite b = Some sp ∧ length old ≤ sp
          ∧ (old ++ new) !! sp = Some s ∧ dataItem s = Some r.
Proof.
  intros Hlen Hall (m & Hm & ->)%numbered_elem. rewrite <- Hlen in Hm.
  destruct (made_sprite_lookup old new r m Hall Hm) as (s & Hs & Hr).
  exists (length old + m), s. simpl. repeat split; [lia | done..].
Qed.

(** What marker creation leaves, for each kind of geometry. *)
Lemma run_makeBullets r d w :
  items w !! r = Some d →
  ∃ new n index,
    _makeBullets this r w
    = Ok () {| items := <[ r := with_bullets
                 (numbered (length (sprites w)) index n) d ]> (items w);
               sprites := sprites w ++ new;
               log := log w |}
    ∧ length new = n
    ∧ Forall (λ s, dataItem s = Some r) new
    ∧ match geometry d with
      | Some (Point _) => n = length (bulletFunctions this) ∧ index = λ _, None
      | Some (MultiPoint cs) =>
          n = length (bulletFunctions this) * length cs
          ∧ index = λ m, Some (m mod length cs)
      | None => n = 0
      end.
Proof.
  intros Hd. unfold _makeBullets.
  rewrite run_bind. unfold reset_bullets at 1. rewrite Hd.
  set (w0 := {| items := <[ r := with_bullets [] d ]> (items w);
                sprites := sprites w; log := log w |}).
  assert (Hd0 : items w0 !! r = Some (with_bullets [] d))
    by (by eapply lookup_insert_here).
  destruct (geometry d) as [[c0 | cs] |] eqn:Hg.
  - destruct (run_each_bullets_Point r c0 (bulletFunctions this) w0 _ Hd0 Hg)
      as (new & -> & Hlen & Hall).
    exists new, (length (bulletFunctions this)), (λ _, None).
    simpl. rewrite list_insert_insert_eq. by repeat split.
  - destruct (run_each_bullets_MultiPoint r cs (bulletFunctions this) w0 _ Hd0 Hg)
      as (new & -> & Hlen & Hall).
    exists new, (length (bulletFunctions this) * length cs),
      (λ m, Some (m mod length cs)).
    simpl. rewrite list_insert_insert_eq. by repeat split.
  - rewrite (each_None r _ w0 _ Hd0 Hg).
    exists [], 0, (λ _, None). unfold w0. by rewrite app_nil_r.
Qed.

(** Marker creation rebuilds the bullets of the entry: whatever bullets
    the entry had, it ends with the bullets made by this call and no
    other, as many as sprites were added to the store, each with a sprite
    of its own among the added ones.  The sprites that were in the store
    stay there as they were, and an entry without geometry ends with no
    bullet. *)
Theorem makeBullets_rebuilds r d w :
  items w !! r = Some d →
  ∃ w' d' new,
    _makeBullets this r w = Ok () w'
    ∧ items w' !! r = Some d'
    ∧ sprites w' = sprites w ++ new
    ∧ length (bullets d') = length new
    ∧ NoDup (sprite <$> bullets d')
    ∧ (∀ b, b ∈ bullets d' →
         ∃ sp s, sprite b = Some sp ∧ length (sprites w) ≤ sp
                 ∧ sprites w' !! sp = Some s ∧ dataItem s = Some r)
    ∧ (geometry d = None → bullets d' = []).
Proof.
  intros Hd.
  destruct (run_makeBullets r d w Hd) as (new & n & index & -> & Hlen & Hall & Hgeo).
  eexists _, _, new. split; [reflexivity |]. simpl.
  split; [by eapply lookup_insert_here |]. split; [reflexivity |]. simpl.
  split; [by rewrite numbered_length |].
  split; [apply numbered_NoDup |].
  split; [intros b Hb; by eapply numbered_made |].
  intros Hnone. rewrite Hnone in Hgeo. by rewrite Hgeo.
Qed.

(** Markers made and then placed: for an entry with a [MultiPoint]
    geometry, no attachment and no numeric longitude and latitude, creating
    the bullets and placing every one of them puts the marker of each
    bullet function for the coordinate [j] at the projection of that
    coordinate, with the visibility the clip predicate gives a point
    there. *)
Theorem multipoint_markers_placed c r d w cs :
  chart this = Some c →
  items w !! r = Some d →
  geometry d = Some (MultiPoint cs) →
  lineDataItem d = None → lineId d = None →
  polygonDataItem d = None → polygonId d = None →
  number isNumber (longitude d) = None ∨ number isNumber (latitude d) = None →
  ∃ w1 d1 w2,
    _makeBullets this r w = Ok () w1
    ∧ items w1 !! r = Some d1
    ∧ placements isNumber getAngle this (bullets d1) w1 = Ok () w2
    ∧ ∀ k j co,
        k < length (bulletFunctions this) → cs !! j = Some co →
        ∃ s',
          sprites w2 !! (length (sprites w) + (k * length cs + j)) = Some s'
          ∧ dataItem s' = Some r
          ∧ (∀ xy, projection c co = Some xy →
               x s' = Some (fst xy) ∧ y s' = Some (snd xy))
          ∧ visible s' = Some (if geoPath c (Point co)
                               then negb (truthy (clipFront this))
                               else negb (truthy (clipBack this))).
Proof.
  intros Hc Hd Hg Hl Hlid Hp Hpid Hll.
  destruct (run_makeBullets r d w Hd) as (new & n & index & -> & Hlen & Hall & Hgeo).
  rewrite Hg in Hgeo. destruct Hgeo as [-> ->].
  set (d1 := with_bullets _ d).
  set (w1 := {| items := <[ r := d1 ]> (items w); sprites := sprites w ++ new;
                log := log w |}).
  assert (Hd1 : items w1 !! r = Some d1) by (by eapply lookup_insert_here).
  destruct (placements_outcome r d1 (bullets d1) w1 d1 Hd1 (or_introl eq_refl))
    as (w2 & Hrun & _ & Hin & _).
  { apply forallb_true_intro. intros b Hb. unfold sprite_of.
    destruct (numbered_made (sprites w) new r _ _ b Hlen Hall Hb)
      as (sp & s & -> & _ & Hs & Hr).
    simpl. rewrite Hs. by apply bool_decide_eq_true_2. }
  { apply numbered_NoDup. }
  exists w1, d1, w2. split; [reflexivity |]. split; [exact Hd1 |].
  split; [exact Hrun |]. intros k j co Hk Hj.
  assert (Hjlt : j < length cs) by (by eapply lookup_lt_Some).
  assert (Hm : k * length cs + j < length (bulletFunctions this) * length cs) by nia.
  set (b := {| sprite := Some (length (sprites w) + (k * length cs + j));
               _index := Some j |}).
  assert (Hb : b ∈ bullets d1).
  { simpl. apply list_elem_of_lookup. exists (k * length cs + j).
    rewrite numbered_lookup by done.
    by rewrite (Nat.add_comm _ j), Nat.Div0.mod_add, Nat.mod_small,
      (Nat.add_comm j). }
  rewrite <- Hlen in Hm.
  destruct (made_sprite_lookup (sprites w) new r _ Hall Hm) as (s & Hs & Hr).
  rewrite (Hin b _ s Hb eq_refl Hs).
  assert (Ht : target isNumber this b d1 = Some (Point co, co)).
  { rewrite target_fallback.
    - simpl. rewrite Hg. simpl. by rewrite Hj.
    - unfold polygon_of, scanned_polygon. simpl. by rewrite Hp, Hpid.
    - left. unfold line_of, scanned_line. simpl. by rewrite Hl, Hlid.
    - exact Hll. }
  unfold final_sprite. rewrite Hc, Ht. eexists. split; [reflexivity |].
  simpl. split; [exact Hr |]. split; [| reflexivity].
  intros xy Hxy. by rewrite Hxy.
Qed.

End Placement.

(** *** Closed instances on the sample chart *)

Section PlacementInstances.
Import MapPointSeries.

Local Abbreviation place :=
  (_positionBullet sample_isNumber sample_getAngle sample_series).





(** A point on the side that faces the viewer is visible ([clipFront] is
    not set); a point on the far side is hidden ([clipBack] is [true]). *)
Lemma clipping_visibility_witness :
  (∃ w' s',
     _positionBulletReal sample_series 0 (Point [10; 20]%float) [10; 20]%float
       sample_world = Ok () w'
     ∧ sprites w' !! 0 = Some s' ∧ visible s' = Some true)
  ∧ (∃ w' s',
       _positionBulletReal sample_series 4 (Point [120; 95]%float) [120; 95]%float
         sample_world = Ok () w'
       ∧ sprites w' !! 4 = Some s' ∧ visible s' = Some false).
Proof.
  split.
  - destruct (clipping_visibility sample_series sample_chart 0 (sample_sprite 0)
                0 sample_lonlat (Point [10; 20]%float) [10; 20]%float sample_world
                eq_refl eq_refl eq_refl eq_refl)
      as (w' & s' & Hrun & Hs & _ & Hfront & _).
    exists w', s'. split; [exact Hrun |]. split; [exact Hs |].
    apply Hfront; [reflexivity | discriminate].
  - destruct (clipping_visibility sample_series sample_chart 4 (sample_sprite 4)
                4 sample_far (Point [120; 95]%float) [120; 95]%float sample_world
                eq_refl eq_refl eq_refl eq_refl)
      as (w' & s' & Hrun & Hs & _ & _ & Hback & _).
    exists w', s'. split; [exact Hrun |]. split; [exact Hs |].
    apply Hback; reflexivity.
Defined.




(** The same entry: the visibility and the rotation are written all the
    same. *)
Lemma projection_failure_partial_update_witness :
  ∃ w' s' evs,
    _positionBulletReal sample_series 4 (Point [120; 95]%float) [120; 95]%float
      sample_world = Ok () w'
    ∧ sprites w' !! 4 = Some s'
    ∧ log w' = log sample_world ++ evs
    ∧ x s' = None ∧ y s' = None
    ∧ visible s' = Some false
    ∧ sprite_set 4 "visible" ∈ evs
    ∧ rotation s' = Some 45%float
    ∧ sprite_set 4 "rotation" ∈ evs.
Proof.
  destruct (projection_failure_partial_update sample_series sample_chart 4
              (sample_sprite 4) 4 sample_far (Point [120; 95]%float)
              [120; 95]%float sample_world
              eq_refl eq_refl eq_refl eq_refl eq_refl)
    as (w' & s' & evs & Hrun & Hs & Hlog & Hx & Hy & Hvis & Hev & Hrot).
  exists w', s', evs. split; [exact Hrun |]. split; [exact Hs |].
  split; [exact Hlog |]. split; [exact Hx |]. split; [exact Hy |].
  split; [exact Hvis |]. split; [exact Hev |]. exact (Hrot eq_refl).
Defined.

(** Two bullet functions and a multi-point of three coordinates: six
    bullets; the last one has index [2] and is placed at the third
    coordinate. *)
Lemma bullets_per_coordinate_witness :
  ∃ w' d',
    _makeBullets sample_series 5 sample_world = Ok () w'
    ∧ items w' !! 5 = Some d'
    ∧ length (bullets d') = 6
    ∧ ∃ sp s,
        bullets d' !! 5 = Some {| sprite := Some sp; _index := Some 2 |}
        ∧ sprites w' !! sp = Some s ∧ dataItem s = Some 5
        ∧ place {| sprite := Some sp; _index := Some 2 |} w'
          = _positionBulletReal sample_series sp (Point [5; 6]%float) [5; 6]%float w'.
Proof.
  destruct (bullets_per_coordinate sample_isNumber sample_getAngle sample_series
              5 sample_multi sample_world eq_refl)
    as (w' & d' & Hrun & Hd & Hmulti & _).
  destruct (Hmulti _ eq_refl) as [Hlen Hbullets].
  destruct (Hbullets 1 2 [5; 6]%float) as (sp & s & Hb & Hs & Hr & Hplace);
    [simpl; lia | reflexivity |].
  exists w', d'. split; [exact Hrun |]. split; [exact Hd |].
  split; [exact Hlen |]. exists sp, s.
  split; [exact Hb |]. split; [exact Hs |]. split; [exact Hr |].
  apply Hplace; auto.
Defined.

End PlacementInstances.

(* ===================================================================== *)
(** ** Processing an entry and zooming to it *)
(* ===================================================================== *)

Section Lifecycle.
Import MapPointSeries.

Variable isNumber : float → bool.
Variable getAngle : IPoint → IPoint → float.
Variable this : Self.
Variable super_processDataItem : nat → M unit.
Variable _addGeometry : option Geometry → M unit.
Variable zoomToGeoPoint : MapChart → GeoPoint → float → bool → M unit.

Local Abbreviation process :=
  (processDataItem super_processDataItem _addGeometry).

(** The call up to the geometry store: the entry keeps a geometry it has,
    gets the point at its longitude and latitude when it has none, and
    nothing else of it changes. *)
Lemma run_processDataItem r w w1 d1 :
  super_processDataItem r w = Ok () w1 →
  items w1 !! r = Some d1 →
  process r w
  = _addGeometry (Some (processed_geometry d1))
      match geometry d1 with
      | Some _ => w1
      | None =>
          {| items := <[ r := with_geometry (processed_geometry d1) d1 ]> (items w1);
             sprites := sprites w1;
             log := log w1 ++ [dataItem_set r "geometry"] |}
      end.
Proof.
  intros Hsuper Hd1. unfold processDataItem, processed_geometry.
  rewrite run_bind, Hsuper, !run_bind, (run_item_get _ _ _ _ Hd1).
  destruct (geometry d1) as [g|] eqn:Hg.
  - rewrite run_ret, run_bind, (run_item_get _ _ _ _ Hd1). by rewrite Hg.
  - rewrite run_bind, (run_item_get _ _ _ _ Hd1).
    rewrite run_bind, (run_item_get _ _ _ _ Hd1).
    rewrite (run_item_set _ _ _ _ _ Hd1), run_bind.
    erewrite run_item_get by (simpl; by eapply lookup_insert_here).
    reflexivity.
Qed.


(** The store of geometries keeps to itself: adding a geometry returns and
    touches neither a data item nor a sprite. *)
Hypothesis addGeometry_frame :
  ∀ g w, ∃ w', _addGeometry g w = Ok () w'
               ∧ items w' = items w ∧ sprites w' = sprites w.

Lemma processDataItem_outcome r w w1 d1 :
  super_processDataItem r w = Ok () w1 →
  items w1 !! r = Some d1 →
  ∃ w2,
    process r w = Ok () w2
    ∧ items w2 = <[ r := match geometry d1 with
                         | Some _ => d1
                         | None => with_geometry (processed_geometry d1) d1
                         end ]> (items w1)
    ∧ sprites w2 = sprites w1.
Proof.
  intros Hsuper Hd1. rewrite (run_processDataItem r w w1 d1 Hsuper Hd1).
  destruct (geometry d1) as [g|] eqn:Hg.
  - destruct (addGeometry_frame (Some (processed_geometry d1)) w1)
      as (w2 & -> & Hitems & Hsprites).
    exists w2. rewrite Hitems, (list_insert_id _ _ _ Hd1). by repeat split.
  - match goal with
    | |- context [_addGeometry ?g ?w0] =>
        destruct (addGeometry_frame g w0) as (w2 & -> & Hitems & Hsprites)
    end.
    exists w2. by rewrite Hitems, Hsprites.
Qed.



Local Abbreviation zoom := (zoomToDataItem this zoomToGeoPoint).

Lemma run_zoomToDataItem c r d w z :
  chart this = Some c → items w !! r = Some d →
  zoom r z w
  = zoomToGeoPoint c
      {| geo_longitude := default 0%float (longitude d);
         geo_latitude := default 0%float (latitude d) |} z true w.
Proof.
  intros Hc Hd. unfold zoomToDataItem. rewrite Hc.
  by rewrite run_bind, (run_item_get _ _ _ _ Hd), run_bind, (run_item_get _ _ _ _ Hd).
Qed.

(** For an entry with numeric longitude and latitude and no attachment,
    the zoom goes to the very coordinates at which placement puts the
    marker. *)
Theorem zoom_agrees_with_placement c b sp s r d w z lon lat :
  chart this = Some c →
  sprite b = Some sp →
  sprites w !! sp = Some s → dataItem s = Some r → items w !! r = Some d →
  longitude d = Some lon → isNumber lon = true →
  latitude d = Some lat → isNumber lat = true →
  lineDataItem d = None → lineId d = None →
  polygonDataItem d = None → polygonId d = None →
  zoom r z w
  = zoomToGeoPoint c {| geo_longitude := lon; geo_latitude := lat |} z true w
  ∧ _positionBullet isNumber getAngle this b w
    = _positionBulletReal this sp (Point [lon; lat]) [lon; lat] w.
Proof.
  intros Hc Hb Hs Hr Hd Hlon Hnlon Hlat Hnlat Hl Hlid Hp Hpid. split.
  - rewrite (run_zoomToDataItem c r d w z Hc Hd). by rewrite Hlon, Hlat.
  - rewrite (run_positionBullet isNumber getAngle this b sp s r d w Hb Hs Hr Hd).
    rewrite (resolved_world_plain isNumber getAngle this r d w Hd Hl Hlid Hp Hpid).
    unfold target, polygon_of, line_of, scanned_line, scanned_polygon.
    rewrite Hl, Hlid, Hp, Hpid, Hlon, Hlat. simpl. rewrite Hnlon, Hnlat.
    by destruct (number isNumber (positionOnLine d)).
Qed.


End Lifecycle.

Section MoreInstances.
Import MapPointSeries.

Local Abbreviation place :=
  (_positionBullet sample_isNumber sample_getAngle sample_series).

(** Before the series has a chart, the entry that names the line ["a"] is
    left alone: no scan, no write. *)
Lemma placement_needs_chart_witness :
  ∃ w',
    _positionBullet sample_isNumber sample_getAngle sample_unattached
      (sample_bullet 2) sample_world = Ok () w'
    ∧ items w' = items sample_world
    ∧ sprites w' = sprites sample_world
    ∧ log w' = log sample_world.
Proof.
  exact (placement_needs_chart sample_isNumber sample_getAngle sample_unattached
           (sample_bullet 2) 2 (sample_sprite 2) 2 sample_by_line sample_world
           eq_refl eq_refl eq_refl eq_refl eq_refl).
Defined.











(** The multi-point entry, given two stale bullets first: six bullets are
    made and the stale ones are gone. *)
Lemma makeBullets_rebuilds_witness :
  ∃ w' d' new,
    _makeBullets sample_series 5 sample_world_stale = Ok () w'
    ∧ items w' !! 5 = Some d'
    ∧ sprites w' = sprites sample_world ++ new
    ∧ length (bullets d') = length new
    ∧ length new = 6
    ∧ sample_bullet 0 ∉ bullets d'.
Proof.
  destruct (makeBullets_rebuilds sample_series 5
              (with_bullets [ sample_bullet 0; sample_bullet 1 ] sample_multi)
              sample_world_stale eq_refl)
    as (w' & d' & new & Hrun & Hd & Hsprites & Hlen & _ & Hnew & _).
  exists w', d', new. split; [exact Hrun |]. split; [exact Hd |].
  split; [exact Hsprites |]. split; [exact Hlen |]. split.
  - rewrite <- Hlen. clear -Hrun Hd. vm_compute in Hrun.
    injection Hrun as <-. vm_compute in Hd. by injection Hd as <-.
  - intros Hin. destruct (Hnew _ Hin) as (sp & s & Hsp & Hle & _).
    injection Hsp as <-. simpl in Hle. lia.
Defined.

Lemma multipoint_markers_placed_witness :
  ∃ w1 d1 w2 s',
    _makeBullets sample_series 5 sample_world = Ok () w1
    ∧ items w1 !! 5 = Some d1
    ∧ placements sample_isNumber sample_getAngle sample_series (bullets d1) w1
      = Ok () w2
    ∧ sprites w2 !! 11 = Some s'
    ∧ dataItem s' = Some 5
    ∧ x s' = Some 5%float ∧ y s' = Some (-6)%float
    ∧ visible s' = Some true.
Proof.
  destruct (multipoint_markers_placed sample_isNumber sample_getAngle
              sample_series sample_chart 5 sample_multi sample_world
              [ [1; 2]; [3; 4]; [5; 6] ]%float
              eq_refl eq_refl eq_refl eq_refl eq_refl eq_refl eq_refl
              (or_introl eq_refl))
    as (w1 & d1 & w2 & Hmake & Hd1 & Hplace & Hall).
  destruct (Hall 1 2 [5; 6]%float) as (s' & Hs & Hr & Hxy & Hvis);
    [simpl; lia | reflexivity |].
  exists w1, d1, w2, s'. split; [exact Hmake |]. split; [exact Hd1 |].
  split; [exact Hplace |]. split; [exact Hs |]. split; [exact Hr |].
  destruct (Hxy (5%float, (-6)%float) eq_refl) as [Hx Hy].
  split; [exact Hx |]. split; [exact Hy | exact Hvis].
Defined.

Local Abbreviation process :=
  (processDataItem sample_super_processDataItem sample_addGeometry).

Lemma sample_addGeometry_frame g w :
  ∃ w', sample_addGeometry g w = Ok () w'
        ∧ items w' = items w ∧ sprites w' = sprites w.
Proof. by exists w. Qed.




Local Abbreviation zoom := (zoomToDataItem sample_series sample_zoomToGeoPoint).

(** The entry at [(10, 20)]: the zoom and the marker go to the same point. *)
Lemma zoom_agrees_with_placement_witness :
  zoom 0 4%float sample_world
  = sample_zoomToGeoPoint sample_chart
      {| geo_longitude := 10; geo_latitude := 20 |} 4%float true sample_world
  ∧ place (sample_bullet 0) sample_world
    = _positionBulletReal sample_series 0 (Point [10; 20]%float) [10; 20]%float
        sample_world.
Proof.
  exact (zoom_agrees_with_placement sample_isNumber sample_getAngle sample_series
           sample_zoomToGeoPoint sample_chart (sample_bullet 0) 0 (sample_sprite 0)
           0 sample_lonlat sample_world 4%float 10%float 20%float
           eq_refl eq_refl eq_refl eq_refl eq_refl eq_refl eq_refl eq_refl
           eq_refl eq_refl eq_refl eq_refl eq_refl).
Defined.


End MoreInstances.
